(** * Line-editing console of the STM32 example firmware (src/main.c)

    A shallow embedding of the ring buffer, the buffered line editor
    [get_buffered_line], the newlib stubs [_read] and [_write], and the
    millisecond sleep [msleep], followed by the properties of the
    specification that were checked against them.

    Conventions of the embedding.
    - C integers are [Z]; a conversion to a narrower unsigned type is
      written out ([to_uint16], [to_char], [to_uint32]).  The target is a
      32-bit ARM: [int] has 32 bits, so the [uint16_t] indices are promoted
      to [int] before any arithmetic, and plain [char] is unsigned.
    - The C operator [%] truncates towards zero: it is [Z.rem], not
      [Z.modulo].
    - The USART is a pair of byte streams: the words still to be received
      are an explicit argument [rx], the words sent so far are the field
      [tx] of the machine state, oldest first.
    - Loops whose bound is not the input list carry an iteration budget;
      running out of budget is the outcome [None] / [Spins], and the
      budget used by each function is proved sufficient below. *)

From stdpp Require Import base numbers list.

Open Scope Z_scope.

(** ** C arithmetic *)

Definition to_uint16 (x : Z) : Z := x `mod` 65536.
Definition to_uint32 (x : Z) : Z := x `mod` 4294967296.
Definition to_char (x : Z) : Z := x `mod` 256.

(** [while (cond) body;] with an iteration budget. *)
Fixpoint while {S : Type} (fuel : nat) (cond : S -> bool) (body : S -> S)
    (s : S) : option S :=
  if cond s then
    match fuel with
    | O => None
    | Datatypes.S n => while n cond body (body s)
    end
  else Some s.

(** [isspace] of the C locale: space, and the controls \t \n \v \f \r. *)
Definition isspace (c : Z) : bool :=
  (c =? 32) || ((9 <=? c) && (c <=? 13)).

(** ** The ring buffer and the transport *)

Definition BUFLEN : Z := 127.

(** The statics of main.c ([start_ndx], [end_ndx], [buf]) and the bytes
    handed to [usart_send_blocking] so far. *)
Record machine := Machine {
  start_ndx : Z;
  end_ndx : Z;
  buf : list Z;
  tx : list Z
}.

Definition set_start_ndx (n : Z) (m : machine) : machine :=
  Machine n (end_ndx m) (buf m) (tx m).
Definition set_end_ndx (n : Z) (m : machine) : machine :=
  Machine (start_ndx m) n (buf m) (tx m).
Definition set_buf (b : list Z) (m : machine) : machine :=
  Machine (start_ndx m) (end_ndx m) b (tx m).

(** Statics are zero-initialised; [buf] has [BUFLEN + 1] elements. *)
Definition power_on : machine :=
  Machine 0 0 (replicate 128 0) [].

(** [#define buf_len ((end_ndx - start_ndx) % BUFLEN)] *)
Definition buf_len (m : machine) : Z :=
  (end_ndx m - start_ndx m) `rem` BUFLEN.

Definition inc_ndx (n : Z) : Z := (n + 1) `rem` BUFLEN.
Definition dec_ndx (n : Z) : Z := ((n + BUFLEN) - 1) `rem` BUFLEN.

(** [buf[i]] and [buf[i] = c].  An index outside the array is undefined
    behaviour in C; here the read gives 0 and the write does nothing. *)
Definition buf_get (i : Z) (m : machine) : Z := buf m !!! Z.to_nat i.
Definition buf_put (i : Z) (c : Z) (m : machine) : machine :=
  set_buf (<[Z.to_nat i := c]> (buf m)) m.

Definition usart_send_blocking (data : Z) (m : machine) : machine :=
  Machine (start_ndx m) (end_ndx m) (buf m) (tx m ++ [data]).

(** ** The line editor *)

Definition back_up (m : machine) : machine :=
  let m := set_end_ndx (to_uint16 (dec_ndx (end_ndx m))) m in
  let m := usart_send_blocking 8 m in
  let m := usart_send_blocking 32 m in
  usart_send_blocking 8 m.

(** Upper bound on the iterations of the two erase loops. *)
Definition erase_fuel : nat := 127.

(** The branch [c == '\r'] of the loop of [get_buffered_line]. *)
Definition end_of_line (m : machine) : machine :=
  let m := buf_put (end_ndx m) 10 m in
  let m := set_end_ndx (to_uint16 (inc_ndx (end_ndx m))) m in
  let m := buf_put (end_ndx m) 0 m in
  let m := usart_send_blocking 13 m in
  usart_send_blocking 10 m.

(** The rest of the loop body, for a character other than '\r'. *)
Definition edit (c : Z) (m : machine) : option machine :=
  if (c =? 8) || (c =? 127) then
    if buf_len m =? 0 then Some (usart_send_blocking 7 m)
    else Some (back_up m)
  else if c =? 23 then
    while erase_fuel
      (fun m => (buf_len m >? 0) && negb (isspace (buf_get (end_ndx m) m)))
      back_up m
  else if c =? 21 then
    while erase_fuel (fun m => buf_len m >? 0) back_up m
  else
    if buf_len m =? BUFLEN - 1 then Some (usart_send_blocking 7 m)
    else
      let m := buf_put (end_ndx m) c m in
      let m := set_end_ndx (to_uint16 (inc_ndx (end_ndx m))) m in
      Some (usart_send_blocking c m).

(** How a call that talks to the USART ends. *)
Inductive outcome (A : Type) : Type :=
| Returns (a : A) (rx : list Z) (m : machine)
    (* returned [a]; [rx] is the input not yet received *)
| Blocked (m : machine)
    (* waiting in [usart_recv_blocking]: the input ran out *)
| Spins.
    (* a loop exceeded its iteration budget *)
Arguments Returns {A} a rx m.
Arguments Blocked {A} m.
Arguments Spins {A}.

(** The [while (1)] loop of [get_buffered_line]; each iteration receives
    one word, which the assignment to [char c] truncates to eight bits. *)
Fixpoint line_loop (rx : list Z) (m : machine) : outcome unit :=
  match rx with
  | [] => Blocked m
  | w :: rx' =>
      let c := to_char w in
      if c =? 13 then Returns tt rx' (end_of_line m)
      else
        match edit c m with
        | Some m' => line_loop rx' m'
        | None => Spins
        end
  end.

Definition get_buffered_line (rx : list Z) (m : machine) : outcome unit :=
  if negb (start_ndx m =? end_ndx m) then Returns tt rx m
  else line_loop rx m.

(** ** The stream adapter *)

(** State of the loop of [_write]: the counter [i], the offset of [ptr]
    from its initial value, and the machine. *)
Definition write_body (ptr : nat -> Z) (s : Z * nat * machine)
    : Z * nat * machine :=
  let '(i, p, m) := s in
  let m := usart_send_blocking (ptr p) m in
  let m := if ptr p =? 10 then usart_send_blocking 13 m else m in
  (i + 1, Datatypes.S p, m).

(** [_write (fd, ptr, len)]; [ptr k] is the byte at address [ptr + k]. *)
Definition _write (fd : Z) (ptr : nat -> Z) (len : Z) (m : machine)
    : option (Z * machine) :=
  if fd >? 2 then Some (-1, m)
  else
    match while (Z.to_nat len)
            (fun '(i, p, _) => negb (ptr p =? 0) && (i <? len))
            (write_body ptr) (0, O, m) with
    | Some (i, _, m') => Some (i, m')
    | None => None
    end.

(** State of the loop of [_read]: the machine, the bytes stored through
    [ptr] so far (oldest first), [my_len] and the remaining [len]. *)
Definition read_body (s : machine * list Z * Z * Z)
    : machine * list Z * Z * Z :=
  let '(m, dest, my_len, len) := s in
  let dest := dest ++ [buf_get (start_ndx m) m] in
  let m := set_start_ndx (to_uint16 (inc_ndx (start_ndx m))) m in
  (m, dest, my_len + 1, len - 1).

(** [_read (fd, ptr, len)]: the result is the pair of the returned count
    and the bytes stored through [ptr]. *)
Definition _read (fd : Z) (len : Z) (rx : list Z) (m : machine)
    : outcome (Z * list Z) :=
  if fd >? 2 then Returns (-1, []) rx m
  else
    match get_buffered_line rx m with
    | Returns _ rx' m' =>
        match while (Z.to_nat len)
                (fun '(m, _, _, len) => (buf_len m >? 0) && (len >? 0))
                read_body (m', [], 0, len) with
        | Some (m'', dest, my_len, _) => Returns (my_len, dest) rx' m''
        | None => Spins
        end
    | Blocked m' => Blocked m'
    | Spins => Spins
    end.

(** ** The millisecond counter and the sleep *)

(** [system_millis++] on a [uint32_t]. *)
Definition sys_tick_handler (system_millis : Z) : Z :=
  to_uint32 (system_millis + 1).

(** The busy-wait of [msleep].  The schedule lists, for each evaluation of
    the loop condition, how many tick interrupts fired since the previous
    read of [system_millis].  The result is the number of ticks that had
    fired when the loop was left, or [None] while it still spins at the
    end of the schedule. *)
Fixpoint msleep_wait (wake system_millis : Z) (elapsed : nat)
    (schedule : list nat) : option nat :=
  match schedule with
  | [] => None
  | k :: schedule' =>
      let system_millis := Nat.iter k sys_tick_handler system_millis in
      if wake >? system_millis
      then msleep_wait wake system_millis (elapsed + k)%nat schedule'
      else Some (elapsed + k)%nat
  end.

Definition msleep (delay : Z) (system_millis : Z) (schedule : list nat)
    : option nat :=
  let wake := to_uint32 (system_millis + delay) in
  msleep_wait wake system_millis 0%nat schedule.

(** ** Observations used in the statements *)

(** The bytes logically held by the ring: those at [start_ndx],
    [start_ndx + 1], ... (modulo [BUFLEN]) up to, not including,
    [end_ndx]. *)
Definition pending (m : machine) : list Z :=
  (fun k => buf_get ((start_ndx m + Z.of_nat k) `mod` BUFLEN) m)
    <$> seq 0 (Z.to_nat ((end_ndx m - start_ndx m) `mod` BUFLEN)).

(** The [n] elements of the array from index [i] on. *)
Definition slice (i n : nat) (l : list Z) : list Z := take n (drop i l).

(** Indices in range and the array at its declared size. *)
Definition wf (m : machine) : Prop :=
  0 <= start_ndx m < BUFLEN /\ 0 <= end_ndx m < BUFLEN /\
  length (buf m) = 128%nat.

(** Number of leading non-NUL bytes of the string at [ptr + p], counting
    at most [n] of them. *)
Fixpoint strnlen (ptr : nat -> Z) (p n : nat) : nat :=
  match n with
  | O => O
  | Datatypes.S n' =>
      if ptr p =? 0 then O else Datatypes.S (strnlen ptr (Datatypes.S p) n')
  end.

(** What one source byte puts on the wire. *)
Definition lf_to_crlf (b : Z) : list Z :=
  if b =? 10 then [10; 13] else [b].

(** The bytes the editor inserts: eight-bit values other than '\r', ^H,
    DEL, ^W and ^U. *)
Definition ordinary (c : Z) : bool :=
  (0 <=? c) && (c <? 256) &&
  negb ((c =? 13) || (c =? 8) || (c =? 127) || (c =? 23) || (c =? 21)).

(** The machines the firmware can be in between two calls: power-on, and
    whatever a returning [get_buffered_line] or [_read] leaves behind. *)
Inductive reachable : machine -> Prop :=
| reach_power_on : reachable power_on
| reach_line rx rx' m m' :
    reachable m -> get_buffered_line rx m = Returns tt rx' m' -> reachable m'
| reach_read fd len rx rx' r m m' :
    reachable m -> _read fd len rx m = Returns r rx' m' -> reachable m'.

(** The machine after the bytes [bs] went out on the wire, nothing else
    changed. *)
Definition sent (bs : list Z) (m : machine) : machine :=
  Machine (start_ndx m) (end_ndx m) (buf m) (tx m ++ bs).

(** What [k] calls of [back_up] put on the wire. *)
Definition erase_seq (k : nat) : list Z := concat (replicate k [8; 32; 8]).

(** The pointer [ptr + n]. *)
Definition ptr_add (ptr : nat -> Z) (n : nat) : nat -> Z :=
  fun k => ptr (n + k)%nat.

(** A received word that the assignment to [char c] turns into '\r'. *)
Definition is_cr (w : Z) : bool := to_char w =? 13.

(** The part of the machine the editor never changes: the read cursor
    and the size of the array; the wire only grows. *)
Definition editor_frame (m m' : machine) : Prop :=
  start_ndx m' = start_ndx m /\
  length (buf m') = length (buf m) /\
  exists t, tx m' = tx m ++ t.

(** * Properties *)

(** Closed statements are settled by running the embedding. *)
Ltac run := vm_compute; reflexivity.

(** The test [fd > 2] at the head of [_read] and [_write], for a
    descriptor known to be at most 2. *)
Ltac pass_guard fd :=
  replace (fd >? 2) with false
    by (symmetry; rewrite Z.gtb_ltb; apply Z.ltb_ge; lia).

(** ** Loops *)

Lemma while_done {S : Type} fuel (cond : S -> bool) body s :
  cond s = false -> while fuel cond body s = Some s.
Proof. intros H. destruct fuel; simpl; rewrite H; reflexivity. Qed.

Lemma while_unroll {S : Type} fuel (cond : S -> bool) body s :
  cond s = true ->
  while (Datatypes.S fuel) cond body s = while fuel cond body (body s).
Proof. intros H. simpl. rewrite H. reflexivity. Qed.

(** A loop whose body decreases a measure bounded by the budget ends, in
    a state that fails the condition. *)
Lemma while_terminates {S : Type} (mu : S -> nat) (cond : S -> bool) body :
  (forall s, cond s = true -> (mu (body s) < mu s)%nat) ->
  forall fuel s, (mu s <= fuel)%nat ->
  exists s', while fuel cond body s = Some s' /\ cond s' = false.
Proof.
  intros Hdec fuel. induction fuel as [|fuel IH]; intros s Hmu.
  - destruct (cond s) eqn:Hc.
    + specialize (Hdec s Hc). lia.
    + exists s. split; [apply while_done|]; assumption.
  - destruct (cond s) eqn:Hc.
    + rewrite while_unroll by assumption.
      apply IH. specialize (Hdec s Hc). lia.
    + exists s. split; [apply while_done|]; assumption.
Qed.

Lemma while_ext {S : Type} (cond cond' : S -> bool) body :
  (forall s, cond s = cond' s) ->
  forall fuel s, while fuel cond body s = while fuel cond' body s.
Proof.
  intros Heq fuel. induction fuel as [|fuel IH]; intros s; simpl;
    rewrite Heq; destruct (cond' s); auto.
Qed.

(** An invariant of the body holds when the loop ends. *)
Lemma while_invariant {S : Type} (P : S -> Prop) (cond : S -> bool) body :
  (forall s, P s -> cond s = true -> P (body s)) ->
  forall fuel s s', P s -> while fuel cond body s = Some s' -> P s'.
Proof.
  intros Hstep fuel. induction fuel as [|fuel IH]; intros s s' HP; simpl;
    destruct (cond s) eqn:Hc; try discriminate;
    try (intros [= <-]; assumption).
  intros Hw. eapply IH; [|exact Hw]. apply Hstep; assumption.
Qed.

(** ** Index arithmetic *)

Lemma inc_ndx_range n : 0 <= n -> 0 <= inc_ndx n < BUFLEN.
Proof.
  intros Hn. unfold inc_ndx, BUFLEN.
  rewrite Z.rem_mod_nonneg by lia. apply Z.mod_pos_bound. lia.
Qed.

Lemma dec_ndx_range n : 0 <= n -> 0 <= dec_ndx n < BUFLEN.
Proof.
  intros Hn. unfold dec_ndx, BUFLEN.
  rewrite Z.rem_mod_nonneg by lia. apply Z.mod_pos_bound. lia.
Qed.

Lemma to_uint16_small n : 0 <= n < BUFLEN -> to_uint16 n = n.
Proof. unfold to_uint16, BUFLEN. intros H. apply Z.mod_small. lia. Qed.

Lemma inc_ndx_small n : 0 <= n < BUFLEN - 1 -> to_uint16 (inc_ndx n) = n + 1.
Proof.
  unfold BUFLEN. intros H. rewrite to_uint16_small by (apply inc_ndx_range; lia).
  unfold inc_ndx, BUFLEN. apply Z.rem_small. lia.
Qed.

Lemma dec_ndx_small n : 0 < n < BUFLEN -> to_uint16 (dec_ndx n) = n - 1.
Proof.
  unfold BUFLEN. intros H. rewrite to_uint16_small by (apply dec_ndx_range; lia).
  unfold dec_ndx, BUFLEN. rewrite Z.rem_mod_nonneg by lia.
  replace (n + 127 - 1) with ((n - 1) + 1 * 127) by lia.
  rewrite Z.mod_add by lia. apply Z.mod_small. lia.
Qed.

(** Without wrap-around the macro is the plain difference. *)
Lemma buf_len_small m :
  0 <= start_ndx m <= end_ndx m -> end_ndx m < BUFLEN ->
  buf_len m = end_ndx m - start_ndx m.
Proof.
  unfold buf_len, BUFLEN. intros H1 H2. apply Z.rem_small. lia.
Qed.

Lemma buf_len_empty m : start_ndx m = end_ndx m -> buf_len m = 0.
Proof. unfold buf_len. intros ->. rewrite Z.sub_diag. reflexivity. Qed.

(** ** The iteration budgets are sufficient *)

Lemma while_terminates_inv {S : Type} (P : S -> Prop) (mu : S -> nat)
    (cond : S -> bool) body :
  (forall s, P s -> cond s = true -> P (body s) /\ (mu (body s) < mu s)%nat) ->
  forall fuel s, P s -> (mu s <= fuel)%nat ->
  exists s', while fuel cond body s = Some s' /\ cond s' = false /\ P s'.
Proof.
  intros Hdec fuel. induction fuel as [|fuel IH]; intros s HP Hmu.
  - destruct (cond s) eqn:Hc.
    + destruct (Hdec s HP Hc). lia.
    + exists s. split; [apply while_done|]; auto.
  - destruct (cond s) eqn:Hc.
    + rewrite while_unroll by assumption.
      destruct (Hdec s HP Hc). apply IH; [assumption | lia].
    + exists s. split; [apply while_done|]; auto.
Qed.

Lemma buf_len_bound m : -BUFLEN < buf_len m < BUFLEN.
Proof. unfold buf_len, BUFLEN. Z.to_euclidean_division_equations. lia. Qed.

(** One [back_up] on a ring the macro sees as occupied lowers the macro. *)
Lemma back_up_decreases m :
  0 <= end_ndx m -> buf_len m > 0 ->
  0 <= end_ndx (back_up m) /\ buf_len (back_up m) < buf_len m.
Proof.
  unfold buf_len, back_up, dec_ndx, to_uint16, BUFLEN. simpl.
  intros H1 H2. Z.to_euclidean_division_equations. lia.
Qed.

Lemma back_up_wf m : wf m -> wf (back_up m).
Proof.
  unfold wf. intros (Hs & He & Hl). simpl. repeat split; try lia; try assumption.
  - rewrite to_uint16_small; apply dec_ndx_range; lia.
  - rewrite to_uint16_small by (apply dec_ndx_range; lia).
    apply dec_ndx_range; lia.
Qed.

Lemma erase_loop_terminates (extra : machine -> bool) m :
  0 <= end_ndx m ->
  exists m',
    while erase_fuel (fun m => (buf_len m >? 0) && extra m) back_up m
      = Some m'.
Proof.
  intros He.
  destruct (while_terminates_inv (fun m => 0 <= end_ndx m)
              (fun m => Z.to_nat (buf_len m))
              (fun m => (buf_len m >? 0) && extra m) back_up) 
    with (fuel := erase_fuel) (s := m) as (m' & Hw & _).
  - intros s Hs Hc. apply andb_prop in Hc as [Hc _].
    apply Z.gtb_lt in Hc.
    destruct (back_up_decreases s Hs) as [H1 H2]; [lia|].
    split; [assumption | lia].
  - assumption.
  - pose proof (buf_len_bound m). unfold erase_fuel, BUFLEN in *. lia.
  - exists m'. assumption.
Qed.

(** The loop body never exhausts its budget. *)
Lemma edit_total c m : 0 <= end_ndx m -> exists m', edit c m = Some m'.
Proof.
  intros He. unfold edit.
  destruct ((c =? 8) || (c =? 127)).
  { destruct (buf_len m =? 0); eauto. }
  destruct (c =? 23).
  { apply (erase_loop_terminates
             (fun m => negb (isspace (buf_get (end_ndx m) m)))).
    assumption. }
  destruct (c =? 21).
  { destruct (erase_loop_terminates (fun _ => true) m He) as [m' Hm'].
    exists m'. rewrite <- Hm'. apply while_ext.
    intros s. rewrite andb_true_r. reflexivity. }
  destruct (buf_len m =? BUFLEN - 1); eauto.
Qed.

Lemma edit_wf c m m' : wf m -> edit c m = Some m' -> wf m'.
Proof.
  intros Hwf. unfold edit.
  destruct ((c =? 8) || (c =? 127)).
  { destruct (buf_len m =? 0); intros [= <-];
      [exact Hwf | apply back_up_wf; exact Hwf]. }
  destruct (c =? 23).
  { apply while_invariant; [|exact Hwf]. intros s Hs _. apply back_up_wf, Hs. }
  destruct (c =? 21).
  { apply while_invariant; [|exact Hwf]. intros s Hs _. apply back_up_wf, Hs. }
  destruct (buf_len m =? BUFLEN - 1); intros [= <-]; [exact Hwf|].
  destruct Hwf as (Hs & He & Hl). unfold wf. simpl.
  rewrite length_insert.
  rewrite to_uint16_small by (apply inc_ndx_range; lia).
  pose proof (inc_ndx_range (end_ndx m)). repeat split; try lia; assumption.
Qed.

Lemma end_of_line_wf m : wf m -> wf (end_of_line m).
Proof.
  intros (Hs & He & Hl). unfold wf. simpl.
  rewrite !length_insert.
  rewrite to_uint16_small by (apply inc_ndx_range; lia).
  pose proof (inc_ndx_range (end_ndx m)). repeat split; try lia; assumption.
Qed.

(** On a well-formed machine the editor either returns a well-formed
    machine or waits for input: it never spins. *)
Lemma line_loop_total rx : forall m, wf m ->
  (exists rx' m', line_loop rx m = Returns tt rx' m' /\ wf m') \/
  (exists m', line_loop rx m = Blocked m' /\ wf m').
Proof.
  induction rx as [|w rx IH]; intros m Hwf; simpl.
  - right. eauto.
  - destruct (to_char w =? 13).
    + left. eexists _, _. split; [reflexivity | apply end_of_line_wf, Hwf].
    + destruct (edit_total (to_char w) m) as [m' Hm'];
        [destruct Hwf as (_ & ? & _); lia|].
      rewrite Hm'. apply IH. eapply edit_wf; eassumption.
Qed.

Lemma get_buffered_line_total rx m : wf m ->
  (exists rx' m', get_buffered_line rx m = Returns tt rx' m' /\ wf m') \/
  (exists m', get_buffered_line rx m = Blocked m' /\ wf m').
Proof.
  intros Hwf. unfold get_buffered_line.
  destruct (negb (start_ndx m =? end_ndx m)).
  - left. eauto.
  - apply line_loop_total, Hwf.
Qed.

Lemma read_body_wf s :
  wf (s.1.1.1) -> wf ((read_body s).1.1.1).
Proof.
  destruct s as [[[m dest] my_len] len]. cbn [fst read_body].
  intros (Hs & He & Hl). unfold wf. simpl.
  rewrite to_uint16_small by (apply inc_ndx_range; lia).
  pose proof (inc_ndx_range (start_ndx m)). repeat split; try lia; assumption.
Qed.

(** The loop of [_read] ends within [len] iterations, on any machine. *)
Lemma read_loop_terminates m dest my_len len :
  exists s,
    while (Z.to_nat len)
      (fun '(m, _, _, len) => (buf_len m >? 0) && (len >? 0))
      read_body (m, dest, my_len, len) = Some s.
Proof.
  destruct (while_terminates (fun s : machine * list Z * Z * Z => Z.to_nat s.2)
              (fun '(m, _, _, len) => (buf_len m >? 0) && (len >? 0))
              read_body)
    with (fuel := Z.to_nat len) (s := (m, dest, my_len, len)) as (s & Hs & _).
  - intros [[[m0 d0] n0] l0] Hc. cbn [snd read_body].
    apply andb_prop in Hc as [_ Hc]. rewrite Z.gtb_ltb in Hc.
    apply Z.ltb_lt in Hc. lia.
  - reflexivity.
  - exists s. exact Hs.
Qed.

Lemma _read_total fd len rx m : wf m ->
  (exists r rx' m', _read fd len rx m = Returns r rx' m' /\ wf m') \/
  (exists m', _read fd len rx m = Blocked m' /\ wf m').
Proof.
  intros Hwf. unfold _read. destruct (fd >? 2).
  { left. eauto. }
  destruct (get_buffered_line_total rx m Hwf)
    as [(rx' & m' & -> & Hwf') | (m' & -> & Hwf')]; [|right; eauto].
  destruct (read_loop_terminates m' [] 0 len) as [s Hs].
  pose proof (while_invariant (fun s : machine * list Z * Z * Z => wf s.1.1.1)
                _ read_body (fun s H _ => read_body_wf s H)
                _ (m', [], 0, len) s Hwf' Hs) as Hinv.
  rewrite Hs. destruct s as [[[m'' dest] my_len] len']. left. eauto.
Qed.

(** Between calls the cursors are inside the ring and the array has its
    declared size. *)
Lemma reachable_wf m : reachable m -> wf m.
Proof.
  induction 1 as [| rx rx' m m' _ IH Hcall | fd len rx rx' r m m' _ IH Hcall].
  - unfold wf, BUFLEN. simpl. repeat split; lia.
  - destruct (get_buffered_line_total rx m IH)
      as [(rx1 & m1 & H1 & Hwf) | (m1 & H1 & _)]; congruence.
  - destruct (_read_total fd len rx m IH)
      as [(r1 & rx1 & m1 & H1 & Hwf) | (m1 & H1 & _)]; congruence.
Qed.

(** ** Bytes on the wire *)

Lemma sent_nil m : sent [] m = m.
Proof. destruct m. unfold sent. simpl. rewrite app_nil_r. reflexivity. Qed.

Lemma sent_sent a b m : sent b (sent a m) = sent (a ++ b) m.
Proof. unfold sent. simpl. rewrite app_assoc. reflexivity. Qed.

Lemma usart_send_blocking_sent c m : usart_send_blocking c m = sent [c] m.
Proof. reflexivity. Qed.

(** ** [_write] *)

Lemma write_body_sent ptr i p m :
  write_body ptr (i, p, m) = (i + 1, Datatypes.S p, sent (lf_to_crlf (ptr p)) m).
Proof.
  unfold write_body, lf_to_crlf. destruct (ptr p =? 10) eqn:Hnl.
  - apply Z.eqb_eq in Hnl. rewrite Hnl.
    rewrite !usart_send_blocking_sent, sent_sent. reflexivity.
  - reflexivity.
Qed.

(** The loop of [_write], started anywhere: it consumes the bytes up to
    the first NUL or up to [len], whichever comes first. *)
Lemma write_loop_spec ptr len : forall fuel i p m,
  (Z.to_nat (len - i) <= fuel)%nat ->
  while fuel (fun '(i, p, _) => negb (ptr p =? 0) && (i <? len))
    (write_body ptr) (i, p, m)
  = Some (i + Z.of_nat (strnlen ptr p (Z.to_nat (len - i))),
          (p + strnlen ptr p (Z.to_nat (len - i)))%nat,
          sent (flat_map (fun j => lf_to_crlf (ptr j))
                  (seq p (strnlen ptr p (Z.to_nat (len - i))))) m).
Proof.
  induction fuel as [|fuel IH]; intros i p m Hfuel.
  - replace (Z.to_nat (len - i)) with O by lia. simpl.
    replace (i <? len) with false by (symmetry; apply Z.ltb_ge; lia).
    rewrite andb_false_r, sent_nil, Z.add_0_r, Nat.add_0_r. reflexivity.
  - destruct (Z.to_nat (len - i)) as [|n] eqn:Hn.
    + rewrite while_done.
      * simpl. rewrite sent_nil, Z.add_0_r, Nat.add_0_r. reflexivity.
      * replace (i <? len) with false by (symmetry; apply Z.ltb_ge; lia).
        apply andb_false_r.
    + simpl strnlen. destruct (ptr p =? 0) eqn:Hnul.
      * rewrite while_done by (rewrite Hnul; reflexivity).
        simpl. rewrite sent_nil, Z.add_0_r, Nat.add_0_r. reflexivity.
      * rewrite while_unroll.
        2:{ rewrite Hnul. simpl. apply Z.ltb_lt. lia. }
        rewrite write_body_sent, IH by lia.
        replace (Z.to_nat (len - (i + 1))) with n by lia.
        rewrite sent_sent. simpl seq. simpl flat_map.
        replace (i + 1 + Z.of_nat (strnlen ptr (Datatypes.S p) n))
          with (i + Z.of_nat (Datatypes.S (strnlen ptr (Datatypes.S p) n)))
          by lia.
        rewrite Nat.add_succ_r. reflexivity.
Qed.

(** C7.  For a descriptor 0, 1 or 2, [_write] consumes the source bytes
    up to [len] or up to the first NUL, puts each on the wire followed by
    a carriage return when it is a newline, and returns the number of
    source bytes consumed.  On the three bytes A, newline, B with
    [len = 3] the wire carries A, newline, carriage return, B and the
    result is 3, whatever lies in memory after them. *)
Theorem write_normalizes_newlines (fd : Z) (ptr : nat -> Z) (len : Z)
    (m : machine) :
  0 <= fd <= 2 ->
  _write fd ptr len m
  = Some (Z.of_nat (strnlen ptr 0 (Z.to_nat len)),
          sent (flat_map (fun j => lf_to_crlf (ptr j))
                  (seq 0 (strnlen ptr 0 (Z.to_nat len)))) m)
  /\ (ptr 0%nat = 65 -> ptr 1%nat = 10 -> ptr 2%nat = 66 -> len = 3 ->
      _write fd ptr len m = Some (3, sent [65; 10; 13; 66] m)).
Proof.
  intros Hfd.
  assert (Hgen : _write fd ptr len m
    = Some (Z.of_nat (strnlen ptr 0 (Z.to_nat len)),
            sent (flat_map (fun j => lf_to_crlf (ptr j))
                    (seq 0 (strnlen ptr 0 (Z.to_nat len)))) m)).
  { unfold _write.
    pass_guard fd.
    rewrite write_loop_spec by lia.
    rewrite Z.sub_0_r, Z.add_0_l. reflexivity. }
  split; [exact Hgen|].
  intros H0 H1 H2 ->. rewrite Hgen.
  change (Z.to_nat 3) with 3%nat.
  replace (strnlen ptr 0 3) with 3%nat
    by (cbn [strnlen]; rewrite H0, H1, H2; reflexivity).
  cbn [seq flat_map]. rewrite H0, H1, H2. reflexivity.
Qed.

Lemma write_normalizes_newlines_witness :
  0 <= 1 <= 2 /\
  _write 1 (fun j => nth j [65; 10; 66] 0) 3 power_on
  = Some (3, sent [65; 10; 13; 66] power_on).
Proof.
  split; [lia|].
  refine (proj2 (write_normalizes_newlines 1 (fun j => nth j [65; 10; 66] 0) 3
                   power_on _) _ _ _ _); [lia | reflexivity..].
Defined.

(** ** Descriptors *)

(** C8, as amended.  For every descriptor greater than 2, [_read] and
    [_write] return -1, receive nothing, send nothing and leave the ring
    buffer as it was. *)
Theorem unsupported_stream_rejected (fd : Z) (ptr : nat -> Z) (len : Z)
    (rx : list Z) (m : machine) :
  fd > 2 ->
  _write fd ptr len m = Some (-1, m) /\
  _read fd len rx m = Returns (-1, []) rx m.
Proof.
  intros Hfd. unfold _write, _read.
  replace (fd >? 2) with true by (symmetry; rewrite Z.gtb_ltb; apply Z.ltb_lt; lia).
  split; reflexivity.
Qed.

Lemma unsupported_stream_rejected_witness :
  3 > 2 /\
  _write 3 (fun _ => 65) 1 power_on = Some (-1, power_on) /\
  _read 3 10 [104; 13] power_on = Returns (-1, []) [104; 13] power_on.
Proof.
  split; [lia|].
  apply (unsupported_stream_rejected 3 (fun _ => 65) 1 [104; 13] power_on).
  lia.
Defined.

(** C8 as first stated covers every descriptor other than 0, 1 and 2; a
    negative one passes the guard [fd > 2] and is served like a standard
    stream. *)
Lemma negative_descriptor_is_served :
  ~ (forall (fd : Z) (ptr : nat -> Z) (len : Z) (rx : list Z) (m : machine),
       fd <> 0 -> fd <> 1 -> fd <> 2 ->
       (exists r, r < 0 /\ _write fd ptr len m = Some (r, m)) /\
       (exists r dest, r < 0 /\ _read fd len rx m = Returns (r, dest) rx m)).
Proof.
  intros H.
  destruct (H (-1) (fun _ => 65) 1 [] power_on) as [(r & Hr & Hw) _];
    try lia.
  (* the call returned 1 and put the byte on the wire *)
  vm_compute in Hw. inversion Hw.
Qed.

(** ** The guard of [get_buffered_line] *)

(** C6.  While a line is still being drained ([start_ndx <> end_ndx]),
    [get_buffered_line] returns at once: it receives nothing (the input
    is handed back whole), sends nothing and leaves [buf] and both
    indices as they were; so does a second call. *)
Theorem get_buffered_line_undrained_noop (rx : list Z) (m : machine) :
  start_ndx m <> end_ndx m ->
  get_buffered_line rx m = Returns tt rx m /\
  forall rx' m', get_buffered_line rx m = Returns tt rx' m' ->
    get_buffered_line rx' m' = Returns tt rx m.
Proof.
  intros Hne.
  assert (H : get_buffered_line rx m = Returns tt rx m).
  { unfold get_buffered_line.
    replace (start_ndx m =? end_ndx m) with false
      by (symmetry; apply Z.eqb_neq; exact Hne).
    reflexivity. }
  split; [exact H|].
  intros rx' m'. rewrite H. intros [= <- <-]. exact H.
Qed.

Lemma get_buffered_line_undrained_noop_witness :
  start_ndx (Machine 0 3 [104; 105; 10; 0] []) <>
  end_ndx (Machine 0 3 [104; 105; 10; 0] []) /\
  get_buffered_line [120; 13] (Machine 0 3 [104; 105; 10; 0] [])
  = Returns tt [120; 13] (Machine 0 3 [104; 105; 10; 0] []).
Proof.
  split; [simpl; lia|].
  refine (proj1 (get_buffered_line_undrained_noop [120; 13]
                   (Machine 0 3 [104; 105; 10; 0] []) _)).
  simpl. lia.
Defined.

(** ** The branches of the loop body *)

Lemma edit_erase_word m :
  edit 23 m
  = while erase_fuel
      (fun m => (buf_len m >? 0) && negb (isspace (buf_get (end_ndx m) m)))
      back_up m.
Proof. reflexivity. Qed.

Lemma edit_erase_line m :
  edit 21 m = while erase_fuel (fun m => buf_len m >? 0) back_up m.
Proof. reflexivity. Qed.

Lemma edit_backspace m :
  edit 8 m
  = if buf_len m =? 0 then Some (usart_send_blocking 7 m)
    else Some (back_up m).
Proof. reflexivity. Qed.

Lemma edit_delete m :
  edit 127 m
  = if buf_len m =? 0 then Some (usart_send_blocking 7 m)
    else Some (back_up m).
Proof. reflexivity. Qed.

Lemma edit_ordinary c m :
  ordinary c = true ->
  edit c m
  = if buf_len m =? BUFLEN - 1 then Some (usart_send_blocking 7 m)
    else Some (sent [c]
                 (set_end_ndx (to_uint16 (inc_ndx (end_ndx m)))
                    (buf_put (end_ndx m) c m))).
Proof.
  unfold ordinary. intros H.
  apply andb_prop in H as [_ H]. apply negb_true_iff in H.
  repeat (apply orb_false_elim in H as [H ?]).
  unfold edit.
  replace (c =? 8) with false by congruence.
  replace (c =? 127) with false by congruence.
  replace (c =? 23) with false by congruence.
  replace (c =? 21) with false by congruence.
  reflexivity.
Qed.

Lemma ordinary_char c : ordinary c = true -> to_char c = c /\ (c =? 13) = false.
Proof.
  unfold ordinary, to_char. intros H.
  apply andb_prop in H as [H1 H]. apply negb_true_iff in H.
  repeat (apply orb_false_elim in H as [H ?]).
  apply andb_prop in H1 as [Hlo Hhi].
  apply Z.leb_le in Hlo. apply Z.ltb_lt in Hhi.
  split; [apply Z.mod_small; lia | assumption].
Qed.

Lemma line_loop_cons_ordinary c rx m :
  ordinary c = true ->
  line_loop (c :: rx) m
  = match edit c m with
    | Some m' => line_loop rx m'
    | None => Spins
    end.
Proof.
  intros H. destruct (ordinary_char c H) as [Hc H13].
  cbn [line_loop]. rewrite Hc, H13. reflexivity.
Qed.

(** ** Erasing on an empty buffer *)

(** C10.  On an empty buffer ([start_ndx = end_ndx]) the bytes ^W (0x17)
    and ^U (0x15) change nothing and send nothing: the editor goes on as
    if they had not been received.  The bytes ^H (0x08) and DEL (0x7F)
    send one alert byte (7) and change nothing else. *)
Theorem erase_on_empty_buffer (rx : list Z) (m : machine) :
  start_ndx m = end_ndx m ->
  (edit 23 m = Some m /\ edit 21 m = Some m /\
   edit 8 m = Some (sent [7] m) /\ edit 127 m = Some (sent [7] m)) /\
  (get_buffered_line (23 :: rx) m = get_buffered_line rx m /\
   get_buffered_line (21 :: rx) m = get_buffered_line rx m /\
   get_buffered_line (8 :: rx) m = get_buffered_line rx (sent [7] m) /\
   get_buffered_line (127 :: rx) m = get_buffered_line rx (sent [7] m)).
Proof.
  intros Hempty. pose proof (buf_len_empty m Hempty) as Hlen.
  assert (H23 : edit 23 m = Some m).
  { rewrite edit_erase_word. apply while_done. rewrite Hlen. reflexivity. }
  assert (H21 : edit 21 m = Some m).
  { rewrite edit_erase_line. apply while_done. rewrite Hlen. reflexivity. }
  assert (H8 : edit 8 m = Some (sent [7] m)).
  { rewrite edit_backspace, Hlen. reflexivity. }
  assert (H127 : edit 127 m = Some (sent [7] m)).
  { rewrite edit_delete, Hlen. reflexivity. }
  split; [auto|].
  unfold get_buffered_line. simpl start_ndx. simpl end_ndx.
  replace (start_ndx m =? end_ndx m) with true
    by (symmetry; apply Z.eqb_eq; exact Hempty).
  simpl negb. cbv iota.
  repeat split.
  - change (line_loop (23 :: rx) m)
      with (match edit 23 m with Some m' => line_loop rx m' | None => Spins end).
    rewrite H23. reflexivity.
  - change (line_loop (21 :: rx) m)
      with (match edit 21 m with Some m' => line_loop rx m' | None => Spins end).
    rewrite H21. reflexivity.
  - change (line_loop (8 :: rx) m)
      with (match edit 8 m with Some m' => line_loop rx m' | None => Spins end).
    rewrite H8. reflexivity.
  - change (line_loop (127 :: rx) m)
      with (match edit 127 m with Some m' => line_loop rx m' | None => Spins end).
    rewrite H127. reflexivity.
Qed.

Lemma erase_on_empty_buffer_witness :
  start_ndx power_on = end_ndx power_on /\
  edit 23 power_on = Some power_on /\
  edit 21 power_on = Some power_on /\
  edit 8 power_on = Some (sent [7] power_on) /\
  edit 127 power_on = Some (sent [7] power_on).
Proof.
  split; [reflexivity|].
  refine (proj1 (erase_on_empty_buffer [] power_on _)). reflexivity.
Defined.

(** ** Inserting and draining without wrap-around *)

Lemma slice_eq (cs : list Z) (i : nat) (l : list Z) :
  (forall j, (j < length cs)%nat -> l !! (i + j)%nat = cs !! j) ->
  slice i (length cs) l = cs.
Proof.
  intros H. unfold slice. apply list_eq. intros j.
  destruct (decide (j < length cs)%nat) as [Hj|Hj].
  - rewrite lookup_take_lt, lookup_drop by exact Hj. apply H, Hj.
  - rewrite lookup_take_ge by lia. symmetry. apply lookup_ge_None. lia.
Qed.

Lemma slice_S (i n : nat) (l : list Z) :
  (i < length l)%nat ->
  slice i (Datatypes.S n) l = l !!! i :: slice (Datatypes.S i) n l.
Proof.
  intros Hi. unfold slice.
  rewrite (drop_S l (l !!! i) i) by (apply list_lookup_lookup_total_lt, Hi).
  reflexivity.
Qed.

(** An ordinary byte arriving when the write cursor is below the last
    index: it is stored at [end_ndx], the cursor moves up by one and the
    byte is echoed. *)
Lemma push_ordinary c m :
  ordinary c = true ->
  0 <= start_ndx m <= end_ndx m -> end_ndx m < BUFLEN - 1 ->
  edit c m
  = Some (Machine (start_ndx m) (end_ndx m + 1)
            (<[Z.to_nat (end_ndx m) := c]> (buf m)) (tx m ++ [c])).
Proof.
  intros Hc Hs He. rewrite edit_ordinary by exact Hc.
  rewrite buf_len_small by (unfold BUFLEN in *; lia).
  replace (end_ndx m - start_ndx m =? BUFLEN - 1) with false
    by (symmetry; apply Z.eqb_neq; unfold BUFLEN in *; lia).
  rewrite inc_ndx_small by lia. reflexivity.
Qed.

(** A run of ordinary bytes that fits below the last index is stored in
    order from [end_ndx] on and echoed verbatim. *)
Lemma line_loop_ordinary (cs : list Z) : forall (rx : list Z) (m : machine),
  Forall (fun c => ordinary c = true) cs ->
  0 <= start_ndx m <= end_ndx m ->
  end_ndx m + Z.of_nat (length cs) < BUFLEN ->
  line_loop (cs ++ rx) m
  = line_loop rx
      (Machine (start_ndx m) (end_ndx m + Z.of_nat (length cs))
         (list_inserts (Z.to_nat (end_ndx m)) cs (buf m)) (tx m ++ cs)).
Proof.
  induction cs as [|c cs IH]; intros rx m Hcs Hs He.
  - destruct m. simpl. rewrite Z.add_0_r, app_nil_r. reflexivity.
  - apply Forall_cons in Hcs as [Hc Hcs].
    cbn [length] in He.
    rewrite <- app_comm_cons, line_loop_cons_ordinary by exact Hc.
    rewrite push_ordinary by (try assumption; unfold BUFLEN in *; lia).
    rewrite IH by (try assumption; simpl; unfold BUFLEN in *; lia).
    cbn [start_ndx end_ndx buf tx length list_inserts].
    replace (Z.to_nat (end_ndx m + 1)) with (Datatypes.S (Z.to_nat (end_ndx m)))
      by lia.
    rewrite list_insert_inserts_lt by lia.
    rewrite <- app_assoc.
    replace (end_ndx m + 1 + Z.of_nat (length cs))
      with (end_ndx m + Z.of_nat (Datatypes.S (length cs))) by lia.
    reflexivity.
Qed.

(** The loop of [_read] when the read cursor is not above the write
    cursor: it copies [min (end_ndx - start_ndx) len] bytes, those stored
    from [start_ndx] on, and moves the read cursor past them. *)
Lemma read_loop_spec : forall fuel m dest my_len len,
  0 <= start_ndx m <= end_ndx m -> end_ndx m < BUFLEN ->
  length (buf m) = 128%nat ->
  (Z.to_nat len <= fuel)%nat ->
  while fuel (fun '(m, _, _, len) => (buf_len m >? 0) && (len >? 0))
    read_body (m, dest, my_len, len)
  = Some (set_start_ndx
            (start_ndx m + Z.of_nat (Z.to_nat (Z.min (end_ndx m - start_ndx m) len))) m,
          dest ++ slice (Z.to_nat (start_ndx m))
                    (Z.to_nat (Z.min (end_ndx m - start_ndx m) len)) (buf m),
          my_len + Z.of_nat (Z.to_nat (Z.min (end_ndx m - start_ndx m) len)),
          len - Z.of_nat (Z.to_nat (Z.min (end_ndx m - start_ndx m) len))).
Proof.
  induction fuel as [|fuel IH]; intros m dest my_len len Hs He Hl Hfuel;
    pose proof (buf_len_small m Hs He) as Hbl;
    destruct (decide (0 < Z.min (end_ndx m - start_ndx m) len)) as [Hk|Hk].
  - lia.
  - rewrite while_done.
    2:{ rewrite Hbl. apply andb_false_iff. rewrite !Z.gtb_ltb, !Z.ltb_ge. lia. }
    replace (Z.to_nat (Z.min (end_ndx m - start_ndx m) len)) with O by lia.
    destruct m. unfold set_start_ndx, slice. simpl.
    rewrite !Z.add_0_r, Z.sub_0_r, app_nil_r. reflexivity.
  - rewrite while_unroll.
    2:{ rewrite Hbl. apply andb_true_iff. rewrite !Z.gtb_ltb, !Z.ltb_lt. lia. }
    cbn [read_body].
    rewrite inc_ndx_small by (unfold BUFLEN in *; lia).
    rewrite IH; cbn [set_start_ndx start_ndx end_ndx buf tx];
      try assumption; try lia.
    replace (Z.to_nat (Z.min (end_ndx m - start_ndx m) len))
      with (Datatypes.S (Z.to_nat (Z.min (end_ndx m - (start_ndx m + 1)) (len - 1))))
      by lia.
    rewrite slice_S by (unfold BUFLEN in *; lia).
    replace (Z.to_nat (start_ndx m + 1))
      with (Datatypes.S (Z.to_nat (start_ndx m))) by lia.
    unfold buf_get. rewrite <- app_assoc. cbn [app].
    generalize (Z.to_nat (Z.min (end_ndx m - (start_ndx m + 1)) (len - 1))).
    intros k. rewrite Nat2Z.inj_succ.
    replace (start_ndx m + 1 + Z.of_nat k)
      with (start_ndx m + Z.succ (Z.of_nat k)) by lia.
    replace (my_len + 1 + Z.of_nat k) with (my_len + Z.succ (Z.of_nat k)) by lia.
    replace (len - 1 - Z.of_nat k) with (len - Z.succ (Z.of_nat k)) by lia.
    reflexivity.
  - rewrite while_done.
    2:{ rewrite Hbl. apply andb_false_iff. rewrite !Z.gtb_ltb, !Z.ltb_ge. lia. }
    replace (Z.to_nat (Z.min (end_ndx m - start_ndx m) len)) with O by lia.
    destruct m. unfold set_start_ndx, slice. simpl.
    rewrite !Z.add_0_r, Z.sub_0_r, app_nil_r. reflexivity.
Qed.

Lemma pending_small m :
  0 <= start_ndx m <= end_ndx m -> end_ndx m < BUFLEN ->
  length (buf m) = 128%nat ->
  pending m
  = slice (Z.to_nat (start_ndx m)) (Z.to_nat (end_ndx m - start_ndx m)) (buf m).
Proof.
  intros Hs He Hl. unfold pending, slice, BUFLEN in *.
  rewrite (Z.mod_small (end_ndx m - start_ndx m)) by lia.
  apply list_eq. intros j. rewrite list_lookup_fmap.
  destruct (decide (j < Z.to_nat (end_ndx m - start_ndx m))%nat) as [Hj|Hj].
  - rewrite lookup_seq_lt, lookup_take_lt, lookup_drop by exact Hj.
    cbn [fmap option_fmap option_map]. unfold buf_get.
    rewrite Z.mod_small by lia.
    replace (Z.to_nat (start_ndx m + Z.of_nat (0 + j)))
      with (Z.to_nat (start_ndx m) + j)%nat by lia.
    symmetry. apply list_lookup_lookup_total_lt. lia.
  - rewrite lookup_seq_ge, lookup_take_ge by lia. reflexivity.
Qed.

Lemma end_of_line_small m :
  0 <= end_ndx m < BUFLEN - 1 ->
  end_of_line m
  = Machine (start_ndx m) (end_ndx m + 1)
      (<[Z.to_nat (end_ndx m + 1) := 0]>
         (<[Z.to_nat (end_ndx m) := 10]> (buf m)))
      (tx m ++ [13; 10]).
Proof.
  intros He. unfold end_of_line, buf_put, set_end_ndx, set_buf,
    usart_send_blocking. cbn [start_ndx end_ndx buf tx].
  rewrite inc_ndx_small by exact He. rewrite <- app_assoc. reflexivity.
Qed.

(** [_read] on a machine that still holds bytes before the write cursor:
    no input is consumed and the oldest bytes are handed over. *)
Lemma read_pending fd len rx m :
  fd <= 2 ->
  0 <= start_ndx m < end_ndx m -> end_ndx m < BUFLEN ->
  length (buf m) = 128%nat ->
  _read fd len rx m
  = Returns
      (Z.of_nat (Z.to_nat (Z.min (end_ndx m - start_ndx m) len)),
       slice (Z.to_nat (start_ndx m))
         (Z.to_nat (Z.min (end_ndx m - start_ndx m) len)) (buf m))
      rx
      (set_start_ndx
         (start_ndx m + Z.of_nat (Z.to_nat (Z.min (end_ndx m - start_ndx m) len)))
         m).
Proof.
  intros Hfd Hs He Hl. unfold _read, get_buffered_line.
  pass_guard fd.
  replace (start_ndx m =? end_ndx m) with false
    by (symmetry; apply Z.eqb_neq; lia).
  cbn [negb]. rewrite read_loop_spec by (try assumption; lia).
  rewrite app_nil_l, Z.add_0_l. reflexivity.
Qed.

(** [_read] with nothing buffered and no input: the call waits in
    [usart_recv_blocking]. *)
Lemma read_empty_blocks fd len m :
  fd <= 2 -> start_ndx m = end_ndx m -> _read fd len [] m = Blocked m.
Proof.
  intros Hfd He. unfold _read, get_buffered_line.
  pass_guard fd.
  replace (start_ndx m =? end_ndx m) with true
    by (symmetry; apply Z.eqb_eq; exact He).
  reflexivity.
Qed.

(** ** Reading back a line *)

(** C5, as amended.  From an empty buffer whose cursors are at most 123 (so
    that the line does not reach the end of the array), after the editor has
    received h, i, carriage return, the wire carries the echo h, i, carriage
    return, newline, and one call [_read (0, dest, 10)] returns 3 and stores
    h, i, newline: the newline comes with the same call.  The buffer is
    then empty, and a further [_read] waits for new input. *)
Theorem read_line_hi (m : machine) (rx : list Z) :
  start_ndx m = end_ndx m -> 0 <= start_ndx m <= 123 ->
  length (buf m) = 128%nat ->
  exists m1 m2,
    get_buffered_line ([104; 105; 13] ++ rx) m = Returns tt rx m1 /\
    tx m1 = tx m ++ [104; 105; 13; 10] /\
    _read 0 10 rx m1 = Returns (3, [104; 105; 10]) rx m2 /\
    start_ndx m2 = end_ndx m2 /\ tx m2 = tx m1 /\
    _read 0 10 [] m2 = Blocked m2.
Proof.
  intros Hempty Hs Hl.
  set (b1 := <[Z.to_nat (end_ndx m + 3) := 0]>
               (<[Z.to_nat (end_ndx m + 2) := 10]>
                  (list_inserts (Z.to_nat (end_ndx m)) [104; 105] (buf m)))).
  set (m1 := Machine (start_ndx m) (end_ndx m + 3) b1
               (tx m ++ [104; 105; 13; 10])).
  assert (Hline : get_buffered_line ([104; 105; 13] ++ rx) m = Returns tt rx m1).
  { unfold get_buffered_line.
    replace (start_ndx m =? end_ndx m) with true
      by (symmetry; apply Z.eqb_eq; exact Hempty).
    cbn [negb].
    change ([104; 105; 13] ++ rx) with ([104; 105] ++ 13 :: rx).
    rewrite line_loop_ordinary;
      [| repeat constructor | lia | unfold BUFLEN; simpl; lia].
    change (line_loop (13 :: rx) ?x) with (Returns tt rx (end_of_line x)).
    rewrite end_of_line_small by (unfold BUFLEN; simpl; lia).
    unfold m1, b1. cbn [start_ndx end_ndx buf tx length].
    rewrite <- app_assoc.
    replace (end_ndx m + Z.of_nat 2 + 1) with (end_ndx m + 3) by lia.
    replace (end_ndx m + Z.of_nat 2) with (end_ndx m + 2) by lia.
    reflexivity. }
  assert (Hb1 : length b1 = 128%nat).
  { unfold b1. rewrite !length_insert, length_inserts. exact Hl. }
  assert (Hslice : slice (Z.to_nat (start_ndx m)) 3 b1 = [104; 105; 10]).
  { apply (slice_eq [104; 105; 10]). intros j Hj. unfold b1.
    rewrite <- Hempty.
    rewrite list_lookup_insert_ne by (simpl in Hj; lia).
    destruct (decide (j = 2%nat)) as [->|Hj2].
    - replace (Z.to_nat (start_ndx m + 2))
        with (Z.to_nat (start_ndx m) + 2)%nat by lia.
      apply list_lookup_insert_eq. rewrite length_inserts. lia.
    - simpl in Hj.
      rewrite list_lookup_insert_ne by lia.
      rewrite list_lookup_inserts by (simpl; lia).
      replace (Z.to_nat (start_ndx m) + j - Z.to_nat (start_ndx m))%nat
        with j by lia.
      destruct j as [|[|j]]; [reflexivity | reflexivity | lia]. }
  exists m1, (set_start_ndx (end_ndx m + 3) m1).
  repeat split.
  - exact Hline.
  - rewrite read_pending;
      cbn [m1 start_ndx end_ndx buf tx]; unfold BUFLEN; try lia; try exact Hb1.
    replace (Z.to_nat (Z.min (end_ndx m + 3 - start_ndx m) 10)) with 3%nat by lia.
    rewrite Hslice. do 2 f_equal. lia.
  - apply read_empty_blocks; [lia | reflexivity].
Qed.

Lemma read_line_hi_witness :
  start_ndx power_on = end_ndx power_on /\
  0 <= start_ndx power_on <= 123 /\
  length (buf power_on) = 128%nat /\
  exists m1 m2,
    get_buffered_line ([104; 105; 13] ++ []) power_on = Returns tt [] m1 /\
    tx m1 = tx power_on ++ [104; 105; 13; 10] /\
    _read 0 10 [] m1 = Returns (3, [104; 105; 10]) [] m2 /\
    start_ndx m2 = end_ndx m2 /\ tx m2 = tx m1 /\
    _read 0 10 [] m2 = Blocked m2.
Proof.
  assert (H1 : start_ndx power_on = end_ndx power_on) by reflexivity.
  assert (H2 : 0 <= start_ndx power_on <= 123) by (simpl; lia).
  assert (H3 : length (buf power_on) = 128%nat) by reflexivity.
  exact (conj H1 (conj H2 (conj H3 (read_line_hi power_on [] H1 H2 H3)))).
Defined.

(** C5 as first stated has the first [_read] return the two bytes h, i
    and leave the newline for a second call; at power-on the first call
    returns three bytes. *)
Lemma first_read_returns_the_newline :
  ~ (exists rx m1 rx' m2,
       get_buffered_line [104; 105; 13] power_on = Returns tt rx m1 /\
       _read 0 10 rx m1 = Returns (2, [104; 105]) rx' m2).
Proof.
  intros (rx & m1 & rx' & m2 & H1 & H2).
  vm_compute in H1. injection H1 as <- <-.
  vm_compute in H2. discriminate H2.
Qed.

(** ** First in, first out *)

(** X19.  First in, first out without wrap-around: when ordinary bytes
    typed on an empty buffer end below the last index of the ring, the
    macro [buf_len] counts them, they are echoed verbatim, and [_read]
    hands them back in insertion order without receiving anything. *)
Theorem fifo_without_wrap (cs : list Z) (m : machine) (len : Z) :
  Forall (fun c => ordinary c = true) cs -> cs <> [] ->
  start_ndx m = end_ndx m -> 0 <= start_ndx m ->
  start_ndx m + Z.of_nat (length cs) < BUFLEN ->
  length (buf m) = 128%nat ->
  Z.of_nat (length cs) <= len ->
  exists m',
    line_loop cs m = Blocked m' /\
    buf_len m' = Z.of_nat (length cs) /\
    pending m' = cs /\
    tx m' = tx m ++ cs /\
    _read 0 len [] m'
    = Returns (Z.of_nat (length cs), cs) [] (set_start_ndx (end_ndx m') m').
Proof.
  intros Hcs Hne Hempty Hs Hfit Hl Hlen.
  assert (Hn : (0 < length cs)%nat) by (destruct cs; [congruence | simpl; lia]).
  set (m' := Machine (start_ndx m) (end_ndx m + Z.of_nat (length cs))
               (list_inserts (Z.to_nat (end_ndx m)) cs (buf m)) (tx m ++ cs)).
  assert (Hslice : slice (Z.to_nat (start_ndx m)) (length cs)
                     (list_inserts (Z.to_nat (end_ndx m)) cs (buf m)) = cs).
  { apply slice_eq. intros j Hj. rewrite <- Hempty.
    rewrite list_lookup_inserts by (unfold BUFLEN in *; lia).
    f_equal. lia. }
  exists m'. split; [|split; [|split; [|split]]].
  - rewrite <- (app_nil_r cs) at 1.
    rewrite line_loop_ordinary by (try assumption; lia). reflexivity.
  - rewrite buf_len_small; cbn [m' start_ndx end_ndx]; lia.
  - rewrite pending_small; cbn [m' start_ndx end_ndx buf];
      try lia; try (rewrite length_inserts; exact Hl).
    replace (Z.to_nat (end_ndx m + Z.of_nat (length cs) - start_ndx m))
      with (length cs) by lia.
    exact Hslice.
  - reflexivity.
  - rewrite read_pending; cbn [m' start_ndx end_ndx buf];
      try lia; try (rewrite length_inserts; exact Hl).
    replace (Z.to_nat (Z.min (end_ndx m + Z.of_nat (length cs) - start_ndx m) len))
      with (length cs) by lia.
    rewrite Hslice. do 2 f_equal. lia.
Qed.

Lemma fifo_without_wrap_witness :
  Forall (fun c => ordinary c = true) [97; 98; 99] /\
  [97; 98; 99] <> [] /\
  start_ndx power_on = end_ndx power_on /\ 0 <= start_ndx power_on /\
  start_ndx power_on + Z.of_nat (length [97; 98; 99]) < BUFLEN /\
  length (buf power_on) = 128%nat /\
  Z.of_nat (length [97; 98; 99]) <= 3 /\
  exists m',
    line_loop [97; 98; 99] power_on = Blocked m' /\
    buf_len m' = Z.of_nat (length [97; 98; 99]) /\
    pending m' = [97; 98; 99] /\
    tx m' = tx power_on ++ [97; 98; 99] /\
    _read 0 3 [] m'
    = Returns (Z.of_nat (length [97; 98; 99]), [97; 98; 99]) []
        (set_start_ndx (end_ndx m') m').
Proof.
  assert (H0 : Forall (fun c => ordinary c = true) [97; 98; 99])
    by (repeat constructor).
  assert (H1 : [97; 98; 99] <> []) by discriminate.
  assert (H2 : start_ndx power_on = end_ndx power_on) by reflexivity.
  assert (H3 : 0 <= start_ndx power_on) by (simpl; lia).
  assert (H4 : start_ndx power_on + Z.of_nat (length [97; 98; 99]) < BUFLEN)
    by (unfold BUFLEN; simpl; lia).
  assert (H5 : length (buf power_on) = 128%nat) by reflexivity.
  assert (H6 : Z.of_nat (length [97; 98; 99]) <= 3) by (simpl; lia).
  exact (conj H0 (conj H1 (conj H2 (conj H3 (conj H4 (conj H5 (conj H6
           (fifo_without_wrap [97; 98; 99] power_on 3
              H0 H1 H2 H3 H4 H5 H6)))))))).
Defined.

(** C4 at a wrapped cursor.  Reading a line of 125 bytes from power-on
    leaves the buffer empty with both cursors at 126.  One ordinary byte
    inserted there moves the write cursor to 0: the macro evaluates to
    -126, not 1, and [_read] returns no byte. *)
Theorem fifo_lost_across_wrap :
  exists m0 m1,
    _read 0 200 (replicate 125 97 ++ [13]) power_on
    = Returns (126, replicate 125 97 ++ [10]) [] m0 /\
    reachable m0 /\
    start_ndx m0 = 126 /\ end_ndx m0 = 126 /\
    line_loop [98] m0 = Blocked m1 /\
    start_ndx m1 = 126 /\ end_ndx m1 = 0 /\ pending m1 = [98] /\
    buf_len m1 = -126 /\
    _read 0 1 [] m1 = Returns (0, []) [] m1.
Proof.
  eexists _, _.
  split; [run|].
  split.
  { refine (reach_read 0 200 (replicate 125 97 ++ [13]) []
              (126, replicate 125 97 ++ [10]) power_on _ reach_power_on _).
    run. }
  do 3 (split; [run|]).
  repeat split; run.
Qed.

(** ** The occupancy macro *)

(** C1 at a reachable state.  From power-on, a first [_read] takes an
    empty line and a second one takes a line of 125 bytes; the write
    cursor has then wrapped to 0 while the read cursor is 1.  The ring
    holds 126 bytes, but the macro evaluates to -1 and the second
    [_read] returns 0. *)
Theorem buf_len_negative_after_wrap :
  exists m1 m2,
    _read 0 200 [13] power_on = Returns (1, [10]) [] m1 /\
    _read 0 200 (replicate 125 97 ++ [13]) m1 = Returns (0, []) [] m2 /\
    reachable m2 /\
    start_ndx m2 = 1 /\ end_ndx m2 = 0 /\
    buf_len m2 = -1 /\
    (end_ndx m2 - start_ndx m2) `mod` BUFLEN = 126 /\
    pending m2 = replicate 125 97 ++ [10].
Proof.
  eexists _, _.
  do 2 (split; [run|]).
  split.
  { eapply (reach_read 0 200 (replicate 125 97 ++ [13]) [] (0, [])).
    - eapply (reach_read 0 200 [13] [] (1, [10]) power_on);
        [apply reach_power_on | run].
    - run. }
  repeat split; run.
Qed.

(** X3.  Between calls (in every reachable machine) the macro [buf_len]
    is zero exactly when the two cursors are equal: the test
    [buf_len == 0] of the erase-character branch and the guard
    [start_ndx != end_ndx] of [get_buffered_line] agree. *)
Lemma buf_len_zero_iff m :
  reachable m -> (buf_len m = 0 <-> start_ndx m = end_ndx m).
Proof.
  intros Hr. apply reachable_wf in Hr. revert Hr.
  unfold wf, buf_len, BUFLEN. intros (Hs & He & _).
  split; intros H.
  - Z.to_euclidean_division_equations. lia.
  - rewrite H, Z.sub_diag. reflexivity.
Qed.

Lemma buf_len_zero_iff_witness :
  reachable power_on /\
  (buf_len power_on = 0 <-> start_ndx power_on = end_ndx power_on).
Proof.
  exact (conj reach_power_on (buf_len_zero_iff power_on reach_power_on)).
Defined.

(** ** The capacity check *)

(** C3 at occupancy C - 2 = 125.  After 125 ordinary bytes typed at
    power-on, one more is stored and echoed, without an alert; the
    occupancy becomes 126, and only then is a byte refused.  A carriage
    return typed next wraps the write cursor onto the read cursor: the
    buffer counts as empty and the line is lost.  Once the cursors have
    moved (here to 1, after an empty line was read), no byte is refused
    at all: 127 ordinary bytes are all echoed and the write cursor comes
    back onto the read cursor. *)
Theorem capacity_check_leaves_no_slot :
  (exists m125 m126 m,
     line_loop (replicate 125 97) power_on = Blocked m125 /\
     buf_len m125 = 125 /\
     edit 97 m125 = Some m126 /\
     buf_len m126 = 126 /\ tx m126 = tx m125 ++ [97] /\
     edit 97 m126 = Some (sent [7] m126) /\
     line_loop [13] m126 = Returns tt [] m /\
     start_ndx m = end_ndx m /\
     _read 0 200 [] m = Blocked m) /\
  (exists m1 m',
     _read 0 200 [13] power_on = Returns (1, [10]) [] m1 /\
     line_loop (replicate 127 97) m1 = Blocked m' /\
     tx m' = tx m1 ++ replicate 127 97 /\
     start_ndx m' = end_ndx m').
Proof.
  split.
  - eexists _, _, _.
    do 7 (split; [run|]). split; run.
  - eexists _, _.
    do 2 (split; [run|]). split; run.
Qed.

(** ** Erase-word *)

(** C2 on its own example.  After f, o, o, space, b, a, r typed at
    power-on, ^W backs up four times, not three: the loop tests the byte
    at the write cursor, one past the last byte typed, so it stops only
    once the cursor stands on the space.  The buffer then holds f, o, o.
    When the slot at the write cursor holds a space left by an erased
    character (space, ^H typed after the same seven bytes), ^W erases
    nothing although the last byte typed is r. *)
Theorem erase_word_takes_the_space :
  (exists m,
     line_loop ([102; 111; 111; 32; 98; 97; 114] ++ [23]) power_on
     = Blocked m /\
     start_ndx m = 0 /\ end_ndx m = 3 /\
     pending m = [102; 111; 111] /\
     tx m = [102; 111; 111; 32; 98; 97; 114]
            ++ [8; 32; 8] ++ [8; 32; 8] ++ [8; 32; 8] ++ [8; 32; 8]) /\
  (exists m,
     line_loop ([102; 111; 111; 32; 98; 97; 114] ++ [32; 8] ++ [23]) power_on
     = Blocked m /\
     pending m = [102; 111; 111; 32; 98; 97; 114] /\
     tx m = [102; 111; 111; 32; 98; 97; 114] ++ [32] ++ [8; 32; 8]).
Proof.
  split.
  - eexists. split; [run|]. repeat split; run.
  - eexists. split; [run|]. split; run.
Qed.

(** ** The sleep *)

Lemma ticks_add (k : nat) (t : Z) :
  0 <= t < 4294967296 ->
  Nat.iter k sys_tick_handler t = to_uint32 (t + Z.of_nat k).
Proof.
  intros Ht. induction k as [|k IH].
  - simpl. unfold to_uint32. rewrite Z.add_0_r, Z.mod_small; [reflexivity | lia].
  - rewrite Nat.iter_succ, IH. unfold sys_tick_handler, to_uint32.
    rewrite Zplus_mod_idemp_l. f_equal. lia.
Qed.

Lemma msleep_wait_elapsed (t0 delay : Z) (schedule : list nat) :
  forall (elapsed e : nat),
  0 <= t0 -> 0 <= delay -> t0 + delay < 4294967296 ->
  msleep_wait (t0 + delay) (to_uint32 (t0 + Z.of_nat elapsed)) elapsed schedule
  = Some e ->
  delay <= Z.of_nat e.
Proof.
  induction schedule as [|k schedule IH]; intros elapsed e Ht Hd Hsum;
    cbn [msleep_wait]; [discriminate|].
  rewrite ticks_add by (unfold to_uint32; apply Z.mod_pos_bound; lia).
  replace (to_uint32 (to_uint32 (t0 + Z.of_nat elapsed) + Z.of_nat k))
    with (to_uint32 (t0 + Z.of_nat (elapsed + k))).
  2:{ unfold to_uint32. rewrite Zplus_mod_idemp_l. f_equal. lia. }
  destruct (t0 + delay >? to_uint32 (t0 + Z.of_nat (elapsed + k))) eqn:Hcmp.
  - apply IH; assumption.
  - intros [= <-]. rewrite Z.gtb_ltb in Hcmp. apply Z.ltb_ge in Hcmp.
    unfold to_uint32 in Hcmp.
    pose proof (Z.mod_le (t0 + Z.of_nat (elapsed + k)) 4294967296). lia.
Qed.

(** X16.  When the deadline [system_millis + delay] fits in 32 bits,
    [msleep] never returns early: whatever the timing of the tick
    interrupts, when it returns at least [delay] ticks have fired since
    the call. *)
Lemma msleep_not_early_without_overflow (delay t0 : Z) (schedule : list nat)
    (e : nat) :
  0 <= t0 -> 0 <= delay -> t0 + delay < 4294967296 ->
  msleep delay t0 schedule = Some e -> delay <= Z.of_nat e.
Proof.
  intros Ht Hd Hsum. unfold msleep.
  replace (to_uint32 (t0 + delay)) with (t0 + delay)
    by (unfold to_uint32; symmetry; apply Z.mod_small; lia).
  replace t0 with (to_uint32 (t0 + Z.of_nat 0)) at 2
    by (unfold to_uint32; rewrite Z.add_0_r; apply Z.mod_small; lia).
  apply msleep_wait_elapsed; assumption.
Qed.

Lemma msleep_not_early_without_overflow_witness :
  0 <= 5 /\ 0 <= 3 /\ 5 + 3 < 4294967296 /\
  msleep 3 5 [0; 1; 0; 1; 1; 1]%nat = Some 3%nat /\
  3 <= Z.of_nat 3.
Proof.
  assert (H0 : 0 <= 5) by lia.
  assert (H1 : 0 <= 3) by lia.
  assert (H2 : 5 + 3 < 4294967296) by lia.
  assert (H3 : msleep 3 5 [0; 1; 0; 1; 1; 1]%nat = Some 3%nat) by run.
  exact (conj H0 (conj H1 (conj H2 (conj H3
           (msleep_not_early_without_overflow 3 5 [0; 1; 0; 1; 1; 1]%nat 3%nat
              H0 H1 H2 H3))))).
Defined.

(** C9 at a counter close to its maximum.  With [system_millis] 500 ticks
    short of 2^32, the deadline of [msleep (1000)] wraps to 500, the
    first test [wake > system_millis] is already false, and the call
    returns with no tick elapsed. *)
Theorem msleep_returns_early_at_rollover :
  to_uint32 (4294966796 + 1000) = 500 /\
  msleep 1000 4294966796 [0%nat] = Some 0%nat /\
  msleep 1000 4294966796 [3%nat] = Some 3%nat.
Proof. repeat split; run. Qed.

(** * Further properties of the code *)

(** ** Ring indices *)

(** X1.  On the indices 0 .. BUFLEN - 1, [inc_ndx] and [dec_ndx] are
    inverse of each other; [inc_ndx] steps up and wraps from BUFLEN - 1
    to 0, [dec_ndx] steps down and wraps from 0 to BUFLEN - 1. *)
Theorem ndx_round_trip (n : Z) :
  0 <= n < BUFLEN ->
  dec_ndx (inc_ndx n) = n /\ inc_ndx (dec_ndx n) = n /\
  inc_ndx n = (if n =? BUFLEN - 1 then 0 else n + 1) /\
  dec_ndx n = (if n =? 0 then BUFLEN - 1 else n - 1).
Proof.
  unfold inc_ndx, dec_ndx, BUFLEN. intros Hn.
  destruct (n =? 127 - 1) eqn:Hhi; destruct (n =? 0) eqn:Hlo;
    rewrite ?Z.eqb_eq, ?Z.eqb_neq in *;
    repeat split; Z.to_euclidean_division_equations; lia.
Qed.

Lemma ndx_round_trip_witness :
  0 <= 126 < BUFLEN /\
  dec_ndx (inc_ndx 126) = 126 /\ inc_ndx (dec_ndx 126) = 126 /\
  inc_ndx 126 = 0 /\ dec_ndx 126 = 125.
Proof.
  assert (H : 0 <= 126 < BUFLEN) by (unfold BUFLEN; lia).
  exact (conj H (ndx_round_trip 126 H)).
Defined.

(** X2.  Between two calls, that is in every machine reachable from
    power-on through returning calls of [get_buffered_line] and [_read],
    both cursors are valid indices below BUFLEN and [buf] has its 128
    elements: no call stores or reads outside the array. *)
Theorem reachable_cursors_in_ring (m : machine) :
  reachable m ->
  0 <= start_ndx m < BUFLEN /\ 0 <= end_ndx m < BUFLEN /\
  length (buf m) = 128%nat.
Proof. intros Hr. exact (reachable_wf m Hr). Qed.

Lemma reachable_cursors_in_ring_witness :
  reachable (Machine 1 1 (<[1%nat := 0]> (<[0%nat := 10]> (replicate 128 0)))
               [13; 10]) /\
  0 <= 1 < BUFLEN /\ 0 <= 1 < BUFLEN /\
  length (<[1%nat := 0]> (<[0%nat := 10]> (replicate 128 0))) = 128%nat.
Proof.
  assert (H : reachable
                (Machine 1 1 (<[1%nat := 0]> (<[0%nat := 10]> (replicate 128 0)))
                   [13; 10])).
  { apply (reach_read 0 200 [13] [] (1, [10]) power_on);
      [apply reach_power_on | run]. }
  exact (conj H (reachable_cursors_in_ring _ H)).
Defined.

(** ** The erase loops *)

Lemma erase_seq_S k : erase_seq (Datatypes.S k) = [8; 32; 8] ++ erase_seq k.
Proof. reflexivity. Qed.

Lemma back_up_small m :
  0 < end_ndx m < BUFLEN ->
  back_up m
  = Machine (start_ndx m) (end_ndx m - 1) (buf m) (tx m ++ [8; 32; 8]).
Proof.
  intros He. unfold back_up, set_end_ndx, usart_send_blocking.
  cbn [start_ndx end_ndx buf tx].
  rewrite dec_ndx_small by exact He. rewrite <- !app_assoc. reflexivity.
Qed.

(** The loop [while (buf_len > 0 && ext) back_up ();] when the write
    cursor is not below the read cursor; [ext] reads the write cursor and
    the array.  It stops at the first cursor position, going down, that
    is the read cursor or fails [ext]. *)
Lemma erase_loop_spec (ext : Z -> list Z -> bool) : forall fuel m,
  0 <= start_ndx m <= end_ndx m -> end_ndx m < BUFLEN ->
  (Z.to_nat (end_ndx m - start_ndx m) <= fuel)%nat ->
  exists e,
    start_ndx m <= e <= end_ndx m /\
    while fuel (fun m => (buf_len m >? 0) && ext (end_ndx m) (buf m))
      back_up m
    = Some (Machine (start_ndx m) e (buf m)
              (tx m ++ erase_seq (Z.to_nat (end_ndx m - e)))) /\
    (e = start_ndx m \/ ext e (buf m) = false) /\
    (forall i, e < i <= end_ndx m -> ext i (buf m) = true).
Proof.
  induction fuel as [|fuel IH]; intros m Hs He Hfuel;
    pose proof (buf_len_small m Hs He) as Hbl;
    destruct ((buf_len m >? 0) && ext (end_ndx m) (buf m)) eqn:Hc.
  - apply andb_prop in Hc as [Hc _]. rewrite Z.gtb_ltb in Hc.
    apply Z.ltb_lt in Hc. lia.
  - exists (end_ndx m). split; [lia|]. split; [|split].
    + rewrite while_done by exact Hc. rewrite Z.sub_diag.
      destruct m. simpl. rewrite app_nil_r. reflexivity.
    + apply andb_false_iff in Hc as [Hc|Hc]; [left|right; exact Hc].
      rewrite Z.gtb_ltb in Hc. apply Z.ltb_ge in Hc. lia.
    + intros i Hi. lia.
  - apply andb_prop in Hc as [Hpos Hext]. rewrite Z.gtb_ltb in Hpos.
    apply Z.ltb_lt in Hpos.
    rewrite while_unroll by (rewrite Z.gtb_ltb; apply andb_true_iff; split;
                             [apply Z.ltb_lt; lia | exact Hext]).
    rewrite back_up_small by lia.
    destruct (IH (Machine (start_ndx m) (end_ndx m - 1) (buf m)
                    (tx m ++ [8; 32; 8])))
      as (e & Hrange & Hrun & Hstop & Hall);
      cbn [start_ndx end_ndx buf tx] in *; try lia.
    exists e. split; [lia|]. split; [|split].
    + rewrite Hrun. f_equal. f_equal. rewrite <- app_assoc. f_equal.
      replace (Z.to_nat (end_ndx m - e))
        with (Datatypes.S (Z.to_nat (end_ndx m - 1 - e))) by lia.
      reflexivity.
    + exact Hstop.
    + intros i Hi. destruct (decide (i = end_ndx m)) as [->|Hne];
        [exact Hext | apply Hall; lia].
  - exists (end_ndx m). split; [lia|]. split; [|split].
    + rewrite while_done by exact Hc. rewrite Z.sub_diag.
      destruct m. simpl. rewrite app_nil_r. reflexivity.
    + apply andb_false_iff in Hc as [Hc|Hc]; [left|right; exact Hc].
      rewrite Z.gtb_ltb in Hc. apply Z.ltb_ge in Hc. lia.
    + intros i Hi. lia.
Qed.

(** X4.  Erase-line (^U, 0x15) with both cursors in the ring.  When the
    write cursor is not below the read cursor, the write cursor comes back
    onto the read cursor and the erase sequence (8, 32, 8) is sent once per
    buffered byte; the array and the read cursor are untouched.  When the
    write cursor is below the read cursor (the ring has wrapped), ^U does
    nothing at all. *)
Theorem erase_line_spec (m : machine) :
  0 <= start_ndx m < BUFLEN -> 0 <= end_ndx m < BUFLEN ->
  edit 21 m
  = Some (if start_ndx m <=? end_ndx m
          then Machine (start_ndx m) (start_ndx m) (buf m)
                 (tx m ++ erase_seq (Z.to_nat (end_ndx m - start_ndx m)))
          else m).
Proof.
  intros Hs He. rewrite edit_erase_line.
  destruct (start_ndx m <=? end_ndx m) eqn:Hle.
  - apply Z.leb_le in Hle.
    rewrite (while_ext _ (fun m => (buf_len m >? 0) && true))
      by (intros s; rewrite andb_true_r; reflexivity).
    destruct (erase_loop_spec (fun _ _ => true) erase_fuel m)
      as (e & Hrange & Hrun & [->|Hstop] & _);
      try lia; try discriminate.
    + unfold erase_fuel, BUFLEN in *. lia.
    + exact Hrun.
  - apply Z.leb_gt in Hle. apply while_done.
    rewrite Z.gtb_ltb. apply Z.ltb_ge.
    unfold buf_len, BUFLEN in *. Z.to_euclidean_division_equations. lia.
Qed.

Lemma erase_line_spec_witness :
  0 <= 2 < BUFLEN /\ 0 <= 5 < BUFLEN /\
  edit 21 (Machine 2 5 (replicate 128 97) [])
  = Some (Machine 2 2 (replicate 128 97) (erase_seq 3)).
Proof.
  assert (H1 : 0 <= 2 < BUFLEN) by (unfold BUFLEN; lia).
  assert (H2 : 0 <= 5 < BUFLEN) by (unfold BUFLEN; lia).
  exact (conj H1 (conj H2
           (erase_line_spec (Machine 2 5 (replicate 128 97) []) H1 H2))).
Defined.

(** X5.  Erase-word (^W, 0x17) when the write cursor is not below the
    read cursor.  The write cursor moves down to the first position [e]
    that is the read cursor or whose slot holds a white-space byte; every
    slot passed, the one under the initial write cursor included, holds a
    byte that is not white space; the erase sequence is sent once per
    position passed; the array and the read cursor are untouched. *)
Theorem erase_word_spec (m : machine) :
  0 <= start_ndx m <= end_ndx m -> end_ndx m < BUFLEN ->
  exists e,
    start_ndx m <= e <= end_ndx m /\
    edit 23 m
    = Some (Machine (start_ndx m) e (buf m)
              (tx m ++ erase_seq (Z.to_nat (end_ndx m - e)))) /\
    (e = start_ndx m \/ isspace (buf m !!! Z.to_nat e) = true) /\
    (forall i, e < i <= end_ndx m -> isspace (buf m !!! Z.to_nat i) = false).
Proof.
  intros Hs He. rewrite edit_erase_word.
  destruct (erase_loop_spec (fun i b => negb (isspace (b !!! Z.to_nat i)))
              erase_fuel m)
    as (e & Hrange & Hrun & Hstop & Hall); try assumption.
  { unfold erase_fuel, BUFLEN in *. lia. }
  exists e. split; [exact Hrange|]. split; [exact Hrun|]. split.
  - destruct Hstop as [->|Hstop]; [left; reflexivity | right].
    apply negb_false_iff. exact Hstop.
  - intros i Hi. apply negb_true_iff. apply Hall, Hi.
Qed.

Lemma erase_word_spec_witness :
  0 <= 0 <= 6 /\ 6 < BUFLEN /\
  exists e,
    0 <= e <= 6 /\
    edit 23 (Machine 0 6 ([97; 32; 98; 32; 99; 100] ++ replicate 122 0) [])
    = Some (Machine 0 e ([97; 32; 98; 32; 99; 100] ++ replicate 122 0)
              ([] ++ erase_seq (Z.to_nat (6 - e)))) /\
    (e = 0 \/
     isspace (([97; 32; 98; 32; 99; 100] ++ replicate 122 0) !!! Z.to_nat e)
     = true) /\
    (forall i, e < i <= 6 ->
       isspace (([97; 32; 98; 32; 99; 100] ++ replicate 122 0) !!! Z.to_nat i)
       = false).
Proof.
  assert (H1 : 0 <= 0 <= 6) by lia.
  assert (H2 : 6 < BUFLEN) by (unfold BUFLEN; lia).
  exact (conj H1 (conj H2
           (erase_word_spec
              (Machine 0 6 ([97; 32; 98; 32; 99; 100] ++ replicate 122 0) [])
              H1 H2))).
Defined.

(** ** Inserting and erasing one character *)

Lemma buf_len_full_iff m :
  0 <= start_ndx m < BUFLEN -> 0 <= end_ndx m < BUFLEN ->
  (buf_len m =? BUFLEN - 1) = (start_ndx m =? 0) && (end_ndx m =? BUFLEN - 1).
Proof.
  unfold buf_len, BUFLEN. intros Hs He.
  destruct (start_ndx m =? 0) eqn:H0; destruct (end_ndx m =? 127 - 1) eqn:H1;
    rewrite ?Z.eqb_eq, ?Z.eqb_neq in *; cbn [andb];
    rewrite ?Z.eqb_eq, ?Z.eqb_neq;
    Z.to_euclidean_division_equations; lia.
Qed.

Lemma ndx_round_trip_aux n :
  0 <= n < BUFLEN ->
  dec_ndx (inc_ndx n) = n /\
  inc_ndx n = (if n =? BUFLEN - 1 then 0 else n + 1).
Proof.
  unfold inc_ndx, dec_ndx, BUFLEN. intros Hn.
  destruct (n =? 127 - 1) eqn:Hhi; rewrite ?Z.eqb_eq, ?Z.eqb_neq in *;
    split; Z.to_euclidean_division_equations; lia.
Qed.

(** X6.  The capacity alert of the insert branch fires exactly when the
    read cursor is 0 and the write cursor is BUFLEN - 1.  With the
    cursors anywhere else in the ring an ordinary byte is always stored
    at the write cursor, the cursor steps to [inc_ndx] of itself and the
    byte is echoed, whatever the ring already holds. *)
Theorem capacity_alert_only_at_zero (c : Z) (m : machine) :
  ordinary c = true ->
  0 <= start_ndx m < BUFLEN -> 0 <= end_ndx m < BUFLEN ->
  edit c m
  = Some (if (start_ndx m =? 0) && (end_ndx m =? BUFLEN - 1)
          then sent [7] m
          else Machine (start_ndx m) (inc_ndx (end_ndx m))
                 (<[Z.to_nat (end_ndx m) := c]> (buf m)) (tx m ++ [c])).
Proof.
  intros Hc Hs He. rewrite edit_ordinary by exact Hc.
  rewrite buf_len_full_iff by assumption.
  destruct ((start_ndx m =? 0) && (end_ndx m =? BUFLEN - 1)); [reflexivity|].
  rewrite to_uint16_small by (apply inc_ndx_range; lia). reflexivity.
Qed.

Lemma capacity_alert_only_at_zero_witness :
  ordinary 97 = true /\ 0 <= 1 < BUFLEN /\ 0 <= 0 < BUFLEN /\
  edit 97 (Machine 1 0 (replicate 128 98) [])
  = Some (Machine 1 1 (<[0%nat := 97]> (replicate 128 98)) [97]).
Proof.
  assert (H0 : ordinary 97 = true) by reflexivity.
  assert (H1 : 0 <= 1 < BUFLEN) by (unfold BUFLEN; lia).
  assert (H2 : 0 <= 0 < BUFLEN) by (unfold BUFLEN; lia).
  exact (conj H0 (conj H1 (conj H2
           (capacity_alert_only_at_zero 97
              (Machine 1 0 (replicate 128 98) []) H0 H1 H2)))).
Defined.

(** A store at the write cursor does not change what the ring holds
    between the cursors. *)
Lemma pending_insert_at_end s e b t t' c :
  0 <= s < BUFLEN -> 0 <= e < BUFLEN ->
  pending (Machine s e (<[Z.to_nat e := c]> b) t) = pending (Machine s e b t').
Proof.
  intros Hs He. unfold pending, buf_get. cbn [start_ndx end_ndx buf].
  apply list_eq. intros j. rewrite !list_lookup_fmap.
  destruct (decide (j < Z.to_nat ((e - s) `mod` BUFLEN))%nat) as [Hj|Hj].
  - rewrite lookup_seq_lt by exact Hj. cbn [fmap option_fmap option_map].
    f_equal. apply list_lookup_total_insert_ne.
    unfold BUFLEN in *.
    assert (Hne : e <> (s + Z.of_nat (0 + j)) `mod` 127).
    { assert (Hj' : Z.of_nat j < (e - s) `mod` 127) by lia.
      pose proof (Nat2Z.is_nonneg j). cbn [Nat.add]. revert Hj'.
      Z.to_euclidean_division_equations. lia. }
    pose proof (Z.mod_pos_bound (s + Z.of_nat (0 + j)) 127). lia.
  - rewrite lookup_seq_ge by lia. reflexivity.
Qed.

(** X7.  Typing an ordinary byte and then erase-character (^H or DEL)
    puts the editor back where it was: same cursors, same buffered
    bytes; the wire has seen the byte and the erase sequence.  This holds
    with the cursors anywhere in the ring, provided the slot after the
    write cursor is not the read cursor. *)
Theorem insert_then_erase_char (c : Z) (m : machine) :
  ordinary c = true ->
  0 <= start_ndx m < BUFLEN -> 0 <= end_ndx m < BUFLEN ->
  inc_ndx (end_ndx m) <> start_ndx m ->
  exists m1 m2,
    edit c m = Some m1 /\
    edit 8 m1 = Some m2 /\ edit 127 m1 = Some m2 /\
    start_ndx m2 = start_ndx m /\ end_ndx m2 = end_ndx m /\
    pending m2 = pending m /\
    tx m2 = tx m ++ [c; 8; 32; 8].
Proof.
  intros Hc Hs He Hroom.
  destruct (ndx_round_trip_aux (end_ndx m) He) as (Hdi & Hinc).
  pose proof (inc_ndx_range (end_ndx m) ltac:(lia)) as Hir.
  set (m1 := Machine (start_ndx m) (inc_ndx (end_ndx m))
               (<[Z.to_nat (end_ndx m) := c]> (buf m)) (tx m ++ [c])).
  set (m2 := Machine (start_ndx m) (end_ndx m)
               (<[Z.to_nat (end_ndx m) := c]> (buf m))
               (tx m ++ [c; 8; 32; 8])).
  assert (H1 : edit c m = Some m1).
  { rewrite edit_ordinary by exact Hc. rewrite buf_len_full_iff by assumption.
    destruct ((start_ndx m =? 0) && (end_ndx m =? BUFLEN - 1)) eqn:Hfull.
    - exfalso. apply andb_prop in Hfull as [H0 H126].
      apply Z.eqb_eq in H0, H126.
      rewrite Hinc, H126, Z.eqb_refl in Hroom. lia.
    - rewrite to_uint16_small by exact Hir. reflexivity. }
  assert (Hnz : (buf_len m1 =? 0) = false).
  { apply Z.eqb_neq. unfold buf_len. cbn [m1 start_ndx end_ndx].
    unfold BUFLEN in *. Z.to_euclidean_division_equations. lia. }
  assert (Hback : back_up m1 = m2).
  { unfold back_up, set_end_ndx, usart_send_blocking.
    cbn [m1 start_ndx end_ndx buf tx].
    rewrite Hdi. rewrite to_uint16_small by exact He.
    unfold m2. rewrite <- !app_assoc. reflexivity. }
  exists m1, m2. split; [exact H1|].
  split; [rewrite edit_backspace, Hnz, Hback; reflexivity|].
  split; [rewrite edit_delete, Hnz, Hback; reflexivity|].
  split; [reflexivity|]. split; [reflexivity|]. split; [|reflexivity].
  unfold m2. destruct m as [s e b t]. cbn [start_ndx end_ndx buf tx] in *.
  apply pending_insert_at_end; assumption.
Qed.

Lemma insert_then_erase_char_witness :
  ordinary 97 = true /\ 0 <= 126 < BUFLEN /\ 0 <= 126 < BUFLEN /\
  inc_ndx 126 <> 126 /\
  exists m1 m2,
    edit 97 (Machine 126 126 (replicate 128 0) []) = Some m1 /\
    edit 8 m1 = Some m2 /\ edit 127 m1 = Some m2 /\
    start_ndx m2 = 126 /\ end_ndx m2 = 126 /\
    pending m2 = pending (Machine 126 126 (replicate 128 0) []) /\
    tx m2 = [] ++ [97; 8; 32; 8].
Proof.
  assert (H0 : ordinary 97 = true) by reflexivity.
  assert (H1 : 0 <= 126 < BUFLEN) by (unfold BUFLEN; lia).
  assert (H2 : inc_ndx 126 <> 126) by (vm_compute; discriminate).
  exact (conj H0 (conj H1 (conj H1 (conj H2
           (insert_then_erase_char 97 (Machine 126 126 (replicate 128 0) [])
              H0 H1 H1 H2))))).
Defined.

(** ** Entering and reading a line *)

(** The machine after the ordinary bytes [cs] and a carriage return were
    typed with the write cursor at [end_ndx m]. *)
Lemma line_loop_line (cs rx : list Z) (m : machine) :
  Forall (fun c => ordinary c = true) cs ->
  0 <= start_ndx m <= end_ndx m ->
  end_ndx m + Z.of_nat (length cs) + 1 < BUFLEN ->
  line_loop (cs ++ 13 :: rx) m
  = Returns tt rx
      (Machine (start_ndx m) (end_ndx m + Z.of_nat (length cs) + 1)
         (<[Z.to_nat (end_ndx m + Z.of_nat (length cs) + 1) := 0]>
            (<[Z.to_nat (end_ndx m + Z.of_nat (length cs)) := 10]>
               (list_inserts (Z.to_nat (end_ndx m)) cs (buf m))))
         (tx m ++ cs ++ [13; 10])).
Proof.
  intros Hcs Hs He.
  rewrite line_loop_ordinary by (try assumption; lia).
  change (line_loop (13 :: rx) ?x) with (Returns tt rx (end_of_line x)).
  rewrite end_of_line_small by (cbn [end_ndx]; unfold BUFLEN in *; lia).
  cbn [start_ndx end_ndx buf tx]. rewrite <- app_assoc. reflexivity.
Qed.

Lemma line_slice (cs : list Z) (s : nat) (b : list Z) :
  (s + length cs + 1 < length b)%nat ->
  slice s (Datatypes.S (length cs))
    (<[(s + length cs + 1)%nat := 0]>
       (<[(s + length cs)%nat := 10]> (list_inserts s cs b)))
  = cs ++ [10].
Proof.
  intros Hfit.
  replace (Datatypes.S (length cs)) with (length (cs ++ [10]))
    by (rewrite length_app; simpl; lia).
  apply slice_eq. intros j Hj. rewrite length_app in Hj. simpl in Hj.
  rewrite list_lookup_insert_ne by lia.
  destruct (decide (j = length cs)) as [->|Hne].
  - rewrite list_lookup_insert_eq by (rewrite length_inserts; lia).
    symmetry. apply list_lookup_middle. reflexivity.
  - rewrite list_lookup_insert_ne by lia.
    rewrite list_lookup_inserts by lia.
    rewrite lookup_app_l by lia. f_equal. lia.
Qed.

(** X8.  A whole line entered on an empty buffer whose cursors leave room
    for it below the end of the ring: after the ordinary bytes [cs] and a
    carriage return, [get_buffered_line] returns with exactly that input
    consumed; the ring holds [cs] followed by a newline, a NUL follows at
    the write cursor, and the wire has echoed [cs], carriage return,
    newline. *)
Theorem line_entry (cs rx : list Z) (m : machine) :
  Forall (fun c => ordinary c = true) cs ->
  start_ndx m = end_ndx m -> 0 <= start_ndx m ->
  start_ndx m + Z.of_nat (length cs) + 1 < BUFLEN ->
  length (buf m) = 128%nat ->
  exists m',
    get_buffered_line (cs ++ 13 :: rx) m = Returns tt rx m' /\
    start_ndx m' = start_ndx m /\
    end_ndx m' = start_ndx m + Z.of_nat (length cs) + 1 /\
    pending m' = cs ++ [10] /\
    buf_get (end_ndx m') m' = 0 /\
    tx m' = tx m ++ cs ++ [13; 10].
Proof.
  intros Hcs Hempty Hs Hfit Hl.
  eexists. split.
  { unfold get_buffered_line.
    replace (start_ndx m =? end_ndx m) with true
      by (symmetry; apply Z.eqb_eq; exact Hempty).
    cbn [negb]. apply line_loop_line; try assumption; lia. }
  cbn [start_ndx end_ndx buf tx]. rewrite <- Hempty.
  split; [reflexivity|]. split; [reflexivity|]. split; [|split].
  - rewrite pending_small; cbn [start_ndx end_ndx buf];
      try lia; try (rewrite !length_insert, length_inserts; exact Hl).
    replace (Z.to_nat (start_ndx m + Z.of_nat (length cs) + 1 - start_ndx m))
      with (Datatypes.S (length cs)) by lia.
    replace (Z.to_nat (start_ndx m + Z.of_nat (length cs) + 1))
      with (Z.to_nat (start_ndx m) + length cs + 1)%nat by lia.
    replace (Z.to_nat (start_ndx m + Z.of_nat (length cs)))
      with (Z.to_nat (start_ndx m) + length cs)%nat by lia.
    apply line_slice. unfold BUFLEN in *. lia.
  - unfold buf_get. cbn [buf end_ndx].
    apply list_lookup_total_insert_eq.
    rewrite length_insert, length_inserts. unfold BUFLEN in *. lia.
  - reflexivity.
Qed.

Lemma line_entry_witness :
  Forall (fun c => ordinary c = true) [111; 107] /\
  start_ndx power_on = end_ndx power_on /\ 0 <= start_ndx power_on /\
  start_ndx power_on + Z.of_nat (length [111; 107]) + 1 < BUFLEN /\
  length (buf power_on) = 128%nat /\
  exists m',
    get_buffered_line ([111; 107] ++ 13 :: [120]) power_on
    = Returns tt [120] m' /\
    start_ndx m' = start_ndx power_on /\
    end_ndx m' = start_ndx power_on + Z.of_nat (length [111; 107]) + 1 /\
    pending m' = [111; 107] ++ [10] /\
    buf_get (end_ndx m') m' = 0 /\
    tx m' = tx power_on ++ [111; 107] ++ [13; 10].
Proof.
  assert (H0 : Forall (fun c => ordinary c = true) [111; 107])
    by (repeat constructor).
  assert (H1 : start_ndx power_on = end_ndx power_on) by reflexivity.
  assert (H2 : 0 <= start_ndx power_on) by (simpl; lia).
  assert (H3 : start_ndx power_on + Z.of_nat (length [111; 107]) + 1 < BUFLEN)
    by (unfold BUFLEN; simpl; lia).
  assert (H4 : length (buf power_on) = 128%nat) by reflexivity.
  exact (conj H0 (conj H1 (conj H2 (conj H3 (conj H4
           (line_entry [111; 107] [120] power_on H0 H1 H2 H3 H4)))))).
Defined.



(** X10.  A line read in two pieces.  With bytes pending and the write
    cursor above the read cursor, a first [_read] with a [len1] smaller
    than the number of pending bytes returns [len1] bytes and leaves the
    rest; a second [_read] returns the rest; the two pieces together are
    the pending bytes in order.  Neither call receives from the
    transport or sends anything, and the buffer ends empty. *)
Theorem partial_reads_compose (fd len1 len2 : Z) (rx : list Z) (m : machine) :
  fd <= 2 ->
  0 <= start_ndx m < end_ndx m -> end_ndx m < BUFLEN ->
  length (buf m) = 128%nat ->
  0 < len1 < end_ndx m - start_ndx m ->
  end_ndx m - start_ndx m - len1 <= len2 ->
  exists d1 d2 m1 m2,
    _read fd len1 rx m = Returns (len1, d1) rx m1 /\
    _read fd len2 rx m1 = Returns (end_ndx m - start_ndx m - len1, d2) rx m2 /\
    d1 ++ d2 = pending m /\
    start_ndx m2 = end_ndx m2 /\ tx m2 = tx m.
Proof.
  intros Hfd Hs He Hl H1 H2.
  do 4 eexists. split; [|split].
  - rewrite read_pending by assumption.
    replace (Z.to_nat (Z.min (end_ndx m - start_ndx m) len1))
      with (Z.to_nat len1) by lia.
    rewrite Z2Nat.id by lia. reflexivity.
  - rewrite read_pending; cbn [set_start_ndx start_ndx end_ndx buf];
      try assumption; try lia.
    replace (Z.to_nat (Z.min (end_ndx m - (start_ndx m + len1)) len2))
      with (Z.to_nat (end_ndx m - start_ndx m - len1)) by lia.
    rewrite Z2Nat.id by lia. reflexivity.
  - cbn [set_start_ndx start_ndx end_ndx buf tx].
    split; [|split; [lia | reflexivity]].
    rewrite pending_small by (try assumption; lia).
    unfold slice.
    replace (Z.to_nat (start_ndx m + len1))
      with (Z.to_nat (start_ndx m) + Z.to_nat len1)%nat by lia.
    rewrite <- drop_drop, take_take_drop. f_equal. lia.
Qed.

Lemma partial_reads_compose_witness :
  0 <= 2 /\ 0 <= 0 < 3 /\ 3 < BUFLEN /\
  length ([104; 105; 10] ++ replicate 125 0) = 128%nat /\
  0 < 2 < 3 - 0 /\ 3 - 0 - 2 <= 10 /\
  exists d1 d2 m1 m2,
    _read 0 2 [] (Machine 0 3 ([104; 105; 10] ++ replicate 125 0) [])
    = Returns (2, d1) [] m1 /\
    _read 0 10 [] m1 = Returns (3 - 0 - 2, d2) [] m2 /\
    d1 ++ d2 = pending (Machine 0 3 ([104; 105; 10] ++ replicate 125 0) []) /\
    start_ndx m2 = end_ndx m2 /\ tx m2 = [].
Proof.
  assert (Hfd : 0 <= 2) by lia.
  assert (H1 : 0 <= 0 < 3) by lia.
  assert (H2 : 3 < BUFLEN) by (unfold BUFLEN; lia).
  assert (H3 : length ([104; 105; 10] ++ replicate 125 0) = 128%nat)
    by reflexivity.
  assert (H4 : 0 < 2 < 3 - 0) by lia.
  assert (H5 : 3 - 0 - 2 <= 10) by lia.
  exact (conj Hfd (conj H1 (conj H2 (conj H3 (conj H4 (conj H5
           (partial_reads_compose 0 2 10 []
              (Machine 0 3 ([104; 105; 10] ++ replicate 125 0) [])
              Hfd H1 H2 H3 H4 H5))))))).
Defined.

(** X11.  Whatever the machine and the input, a returning [_read] either
    rejects the descriptor (result -1, nothing stored) or returns the
    number of bytes it stored through [ptr], which is never negative and
    never more than [len]: the caller's buffer is not overrun. *)
Theorem read_count_bounds (fd len : Z) (rx rx' : list Z) (m m' : machine)
    (r : Z) (dest : list Z) :
  _read fd len rx m = Returns (r, dest) rx' m' ->
  (2 < fd /\ r = -1 /\ dest = []) \/
  (fd <= 2 /\ r = Z.of_nat (length dest) /\ 0 <= r <= Z.max 0 len).
Proof.
  unfold _read. destruct (fd >? 2) eqn:Hfd.
  { intros [= <- <- _ _]. left. rewrite Z.gtb_ltb in Hfd.
    apply Z.ltb_lt in Hfd. auto. }
  rewrite Z.gtb_ltb in Hfd. apply Z.ltb_ge in Hfd.
  destruct (get_buffered_line rx m) as [[] rx1 m1 | |]; try discriminate.
  destruct (while (Z.to_nat len) _ read_body (m1, [], 0, len))
    as [[[[m2 dest2] my_len] len2]|] eqn:Hloop; try discriminate.
  intros [= <- <- _ _]. right. split; [exact Hfd|].
  assert (Hinv : my_len = Z.of_nat (length dest2) /\
                 my_len + Z.max 0 len2 <= Z.max 0 len).
  { apply (while_invariant
             (fun s : machine * list Z * Z * Z =>
                s.1.2 = Z.of_nat (length s.1.1.2) /\
                s.1.2 + Z.max 0 s.2 <= Z.max 0 len)
             (fun '(m, _, _, len) => (buf_len m >? 0) && (len >? 0))
             read_body) with (3 := Hloop).
    - intros [[[m0 d0] n0] l0]. cbn [fst snd read_body].
      intros [Hn Hb] Hc. apply andb_prop in Hc as [_ Hc].
      rewrite Z.gtb_ltb in Hc. apply Z.ltb_lt in Hc.
      rewrite length_app. simpl. lia.
    - cbn [fst snd length]. lia. }
  lia.
Qed.

Lemma read_count_bounds_witness :
  _read 0 2 [104; 105; 13; 120] power_on
  = Returns (2, [104; 105]) [120]
      (Machine 2 3
         (<[3%nat := 0]> (<[2%nat := 10]> (<[1%nat := 105]>
            (<[0%nat := 104]> (replicate 128 0)))))
         [104; 105; 13; 10]) /\
  ((2 < 0 /\ 2 = -1 /\ [104; 105] = []) \/
   (0 <= 2 /\ 2 = Z.of_nat (length [104; 105]) /\ 0 <= 2 <= Z.max 0 2)).
Proof.
  assert (H : _read 0 2 [104; 105; 13; 120] power_on
              = Returns (2, [104; 105]) [120]
                  (Machine 2 3
                     (<[3%nat := 0]> (<[2%nat := 10]> (<[1%nat := 105]>
                        (<[0%nat := 104]> (replicate 128 0)))))
                     [104; 105; 13; 10])) by run.
  exact (conj H (read_count_bounds _ _ _ _ _ _ _ _ H)).
Defined.

(** ** More on [_write] *)

Lemma write_served fd ptr len m :
  fd <= 2 ->
  _write fd ptr len m
  = Some (Z.of_nat (strnlen ptr 0 (Z.to_nat len)),
          sent (flat_map (fun j => lf_to_crlf (ptr j))
                  (seq 0 (strnlen ptr 0 (Z.to_nat len)))) m).
Proof.
  intros Hfd. unfold _write. pass_guard fd.
  rewrite write_loop_spec by lia.
  rewrite Z.sub_0_r, Z.add_0_l. reflexivity.
Qed.

Lemma strnlen_le ptr n : forall p, (strnlen ptr p n <= n)%nat.
Proof.
  induction n as [|n IH]; intros p; simpl; [lia|].
  destruct (ptr p =? 0); [lia|]. specialize (IH (Datatypes.S p)). lia.
Qed.

Lemma strnlen_nonzero ptr n : forall p j,
  (p <= j < p + strnlen ptr p n)%nat -> ptr j <> 0.
Proof.
  induction n as [|n IH]; intros p j; simpl; [lia|].
  destruct (ptr p =? 0) eqn:Hp; [lia|]. intros Hj.
  destruct (decide (j = p)) as [->|Hne].
  - apply Z.eqb_neq. exact Hp.
  - apply (IH (Datatypes.S p)). lia.
Qed.

Lemma strnlen_all ptr n : forall p,
  (forall j, (p <= j < p + n)%nat -> ptr j <> 0) -> strnlen ptr p n = n.
Proof.
  induction n as [|n IH]; intros p H; simpl; [reflexivity|].
  replace (ptr p =? 0) with false
    by (symmetry; apply Z.eqb_neq, H; lia).
  rewrite IH; [reflexivity|]. intros j Hj. apply H. lia.
Qed.

Lemma strnlen_first_nul ptr k : forall p n,
  (k < n)%nat -> ptr (p + k)%nat = 0 ->
  (forall j, (j < k)%nat -> ptr (p + j)%nat <> 0) ->
  strnlen ptr p n = k.
Proof.
  induction k as [|k IH]; intros p n Hk Hnul Hpre;
    destruct n as [|n]; try lia; simpl.
  - rewrite Nat.add_0_r in Hnul. rewrite Hnul. reflexivity.
  - replace (ptr p =? 0) with false.
    2:{ symmetry. apply Z.eqb_neq. specialize (Hpre O).
        rewrite Nat.add_0_r in Hpre. apply Hpre. lia. }
    f_equal. apply IH; [lia | |].
    + replace (Datatypes.S p + k)%nat with (p + Datatypes.S k)%nat by lia.
      exact Hnul.
    + intros j Hj.
      replace (Datatypes.S p + j)%nat with (p + Datatypes.S j)%nat by lia.
      apply Hpre. lia.
Qed.

Lemma strnlen_add ptr a : forall p b,
  strnlen ptr p a = a ->
  strnlen ptr p (a + b) = (a + strnlen ptr (p + a) b)%nat.
Proof.
  induction a as [|a IH]; intros p b Ha; simpl.
  - rewrite Nat.add_0_r. reflexivity.
  - simpl in Ha. destruct (ptr p =? 0); [discriminate|].
    injection Ha as Ha. rewrite IH by exact Ha.
    replace (Datatypes.S p + a)%nat with (p + Datatypes.S a)%nat by lia.
    reflexivity.
Qed.

Lemma strnlen_ptr_add ptr a n : forall p,
  strnlen (ptr_add ptr a) p n = strnlen ptr (a + p) n.
Proof.
  induction n as [|n IH]; intros p; simpl; [reflexivity|].
  unfold ptr_add at 1. destruct (ptr (a + p)%nat =? 0); [reflexivity|].
  rewrite IH. replace (a + Datatypes.S p)%nat with (Datatypes.S (a + p)) by lia.
  reflexivity.
Qed.

Lemma wire_ptr_add ptr a k : forall p,
  flat_map (fun j => lf_to_crlf (ptr_add ptr a j)) (seq p k)
  = flat_map (fun j => lf_to_crlf (ptr j)) (seq (a + p) k).
Proof.
  induction k as [|k IH]; intros p; cbn [seq flat_map]; [reflexivity|].
  rewrite IH. unfold ptr_add.
  replace (a + Datatypes.S p)%nat with (Datatypes.S (a + p)) by lia.
  reflexivity.
Qed.

Lemma wire_length ptr k : forall p,
  (k <= length (flat_map (fun j => lf_to_crlf (ptr j)) (seq p k)) <= 2 * k)%nat.
Proof.
  induction k as [|k IH]; intros p; cbn [seq flat_map]; [simpl; lia|].
  rewrite length_app. specialize (IH (Datatypes.S p)).
  assert (Hone : (1 <= length (lf_to_crlf (ptr p)) <= 2)%nat)
    by (unfold lf_to_crlf; destruct (ptr p =? 10); simpl; lia).
  lia.
Qed.

Lemma wire_nonzero ptr k : forall p,
  (forall j, (p <= j < p + k)%nat -> ptr j <> 0) ->
  Forall (fun b => b <> 0) (flat_map (fun j => lf_to_crlf (ptr j)) (seq p k)).
Proof.
  induction k as [|k IH]; intros p H; cbn [seq flat_map]; [constructor|].
  apply Forall_app. split.
  - unfold lf_to_crlf. destruct (ptr p =? 10) eqn:Hnl.
    + repeat constructor; lia.
    + repeat constructor. apply H. lia.
  - apply IH. intros j Hj. apply H. lia.
Qed.

(** X12.  [_write] never touches the ring buffer: for any descriptor,
    source and length it returns, leaving the cursors and [buf] as they
    were and only adding bytes to the wire.  A rejected descriptor gives
    -1 and sends nothing.  Otherwise the result [r] is between 0 and
    [len], between [r] and [2 r] bytes are sent, and no NUL byte is ever
    sent. *)
Theorem write_frame_and_bounds (fd : Z) (ptr : nat -> Z) (len : Z)
    (m : machine) :
  exists r bs,
    _write fd ptr len m = Some (r, sent bs m) /\
    ((2 < fd /\ r = -1 /\ bs = []) \/
     (fd <= 2 /\ 0 <= r <= Z.max 0 len /\
      r <= Z.of_nat (length bs) <= 2 * r /\
      Forall (fun b => b <> 0) bs)).
Proof.
  destruct (decide (2 < fd)) as [Hfd|Hfd].
  - exists (-1), []. split; [|left; auto].
    unfold _write.
    replace (fd >? 2) with true
      by (symmetry; rewrite Z.gtb_ltb; apply Z.ltb_lt; exact Hfd).
    rewrite sent_nil. reflexivity.
  - eexists _, _. split; [apply write_served; lia|]. right.
    pose proof (strnlen_le ptr (Z.to_nat len) O) as Hle.
    pose proof (wire_length ptr (strnlen ptr 0 (Z.to_nat len)) O) as Hwl.
    split; [lia|]. split; [lia|]. split; [lia|].
    apply wire_nonzero. intros j Hj.
    apply (strnlen_nonzero ptr (Z.to_nat len) O). exact Hj.
Qed.

(** X13.  A write split in two.  For a standard descriptor, when the
    first [len1] source bytes hold no NUL, writing [len1 + len2] bytes at
    once is the same as writing [len1] bytes and then [len2] bytes from
    [ptr + len1]: same bytes on the wire, and the results add up. *)
Theorem write_in_two_pieces (fd : Z) (ptr : nat -> Z) (len1 len2 : Z)
    (m : machine) :
  fd <= 2 -> 0 <= len1 -> 0 <= len2 ->
  (forall j, (j < Z.to_nat len1)%nat -> ptr j <> 0) ->
  exists r2 m1 m2,
    _write fd ptr len1 m = Some (len1, m1) /\
    _write fd (ptr_add ptr (Z.to_nat len1)) len2 m1 = Some (r2, m2) /\
    _write fd ptr (len1 + len2) m = Some (len1 + r2, m2).
Proof.
  intros Hfd H1 H2 Hnz.
  assert (Hall : strnlen ptr 0 (Z.to_nat len1) = Z.to_nat len1)
    by (apply strnlen_all; intros j Hj; apply Hnz; lia).
  eexists _, _, _. split; [|split].
  - rewrite write_served by exact Hfd. rewrite Hall, Z2Nat.id by lia.
    reflexivity.
  - rewrite write_served by exact Hfd. reflexivity.
  - rewrite write_served by exact Hfd.
    rewrite Z2Nat.inj_add by lia.
    rewrite strnlen_add by exact Hall.
    rewrite seq_app, flat_map_app, <- sent_sent.
    rewrite strnlen_ptr_add, wire_ptr_add, !Nat.add_0_r, Nat.add_0_l.
    rewrite Nat2Z.inj_add, Z2Nat.id by lia. reflexivity.
Qed.

Lemma write_in_two_pieces_witness :
  1 <= 2 /\ 0 <= 2 /\ 0 <= 2 /\
  (forall j, (j < Z.to_nat 2)%nat -> nth j [65; 10; 66; 67] 0 <> 0) /\
  exists r2 m1 m2,
    _write 1 (fun j => nth j [65; 10; 66; 67] 0) 2 power_on = Some (2, m1) /\
    _write 1 (ptr_add (fun j => nth j [65; 10; 66; 67] 0) (Z.to_nat 2)) 2 m1
    = Some (r2, m2) /\
    _write 1 (fun j => nth j [65; 10; 66; 67] 0) (2 + 2) power_on
    = Some (2 + r2, m2).
Proof.
  assert (Hfd : 1 <= 2) by lia.
  assert (H1 : 0 <= 2) by lia.
  assert (Hnz : forall j, (j < Z.to_nat 2)%nat -> nth j [65; 10; 66; 67] 0 <> 0).
  { intros [|[|j]] Hj; simpl; lia. }
  exact (conj Hfd (conj H1 (conj H1 (conj Hnz
           (write_in_two_pieces 1 (fun j => nth j [65; 10; 66; 67] 0) 2 2
              power_on Hfd H1 H1 Hnz))))).
Defined.

(** X14.  A NUL byte cuts the write short.  For a standard descriptor,
    when the first NUL of the source is at offset [k] below [len],
    [_write] returns [k]: it sends the [k] bytes before the NUL (with a
    carriage return after each newline) and neither the NUL nor anything
    after it. *)
Theorem write_stops_at_nul (fd : Z) (ptr : nat -> Z) (len : Z) (k : nat)
    (m : machine) :
  fd <= 2 -> Z.of_nat k < len -> ptr k = 0 ->
  (forall j, (j < k)%nat -> ptr j <> 0) ->
  _write fd ptr len m
  = Some (Z.of_nat k,
          sent (flat_map (fun j => lf_to_crlf (ptr j)) (seq 0 k)) m).
Proof.
  intros Hfd Hk Hnul Hpre. rewrite write_served by exact Hfd.
  rewrite (strnlen_first_nul ptr k O (Z.to_nat len)) by (auto; lia).
  reflexivity.
Qed.

Lemma write_stops_at_nul_witness :
  1 <= 2 /\ Z.of_nat 1 < 4 /\ nth 1 [65; 0; 66; 67] 0 = 0 /\
  (forall j, (j < 1)%nat -> nth j [65; 0; 66; 67] 0 <> 0) /\
  _write 1 (fun j => nth j [65; 0; 66; 67] 0) 4 power_on
  = Some (Z.of_nat 1, sent [65] power_on).
Proof.
  assert (Hfd : 1 <= 2) by lia.
  assert (Hk : Z.of_nat 1 < 4) by lia.
  assert (Hnul : nth 1 [65; 0; 66; 67] 0 = 0) by reflexivity.
  assert (Hpre : forall j, (j < 1)%nat -> nth j [65; 0; 66; 67] 0 <> 0).
  { intros [|j] Hj; simpl; lia. }
  exact (conj Hfd (conj Hk (conj Hnul (conj Hpre
           (write_stops_at_nul 1 (fun j => nth j [65; 0; 66; 67] 0) 4 1
              power_on Hfd Hk Hnul Hpre))))).
Defined.

(** ** More on the tick counter and the sleep *)

(** X15.  The tick counter: [k] runs of [sys_tick_handler] advance
    [system_millis] by [k] modulo 2^32, so the counter stays a 32-bit
    value and wraps from 4294967295 to 0. *)
Theorem tick_counter_wraps (k : nat) (t : Z) :
  0 <= t < 4294967296 ->
  Nat.iter k sys_tick_handler t = (t + Z.of_nat k) `mod` 4294967296 /\
  0 <= Nat.iter k sys_tick_handler t < 4294967296.
Proof.
  intros Ht. rewrite ticks_add by exact Ht. unfold to_uint32.
  split; [reflexivity | apply Z.mod_pos_bound; lia].
Qed.

Lemma tick_counter_wraps_witness :
  0 <= 4294967295 < 4294967296 /\
  Nat.iter 2 sys_tick_handler 4294967295
  = (4294967295 + Z.of_nat 2) `mod` 4294967296 /\
  0 <= Nat.iter 2 sys_tick_handler 4294967295 < 4294967296.
Proof.
  assert (H : 0 <= 4294967295 < 4294967296) by lia.
  exact (conj H (tick_counter_wraps 2 4294967295 H)).
Defined.

Lemma msleep_wait_returns (t0 delay : Z) (schedule : list nat) :
  forall (elapsed : nat),
  0 <= t0 -> schedule <> [] ->
  delay <= Z.of_nat (elapsed + sum_list schedule) ->
  t0 + Z.of_nat (elapsed + sum_list schedule) < 4294967296 ->
  exists e,
    msleep_wait (t0 + delay) (t0 + Z.of_nat elapsed) elapsed schedule = Some e /\
    delay <= Z.of_nat e <= Z.of_nat (elapsed + sum_list schedule).
Proof.
  induction schedule as [|k schedule IH]; intros elapsed Ht Hne Hd Hfit;
    [congruence|].
  cbn [msleep_wait sum_list sum_list_with] in *. unfold id in *.
  rewrite ticks_add by lia. unfold to_uint32.
  rewrite Z.mod_small by lia.
  replace (t0 + Z.of_nat elapsed + Z.of_nat k)
    with (t0 + Z.of_nat (elapsed + k)) by lia.
  destruct (t0 + delay >? t0 + Z.of_nat (elapsed + k)) eqn:Hcmp.
  - rewrite Z.gtb_ltb in Hcmp. apply Z.ltb_lt in Hcmp.
    destruct (IH (elapsed + k)%nat) as (e & He & Hb);
      try assumption; try lia.
    { intros ->. simpl in Hd. lia. }
    exists e. split; [exact He | lia].
  - rewrite Z.gtb_ltb in Hcmp. apply Z.ltb_ge in Hcmp.
    exists (elapsed + k)%nat. split; [reflexivity | lia].
Qed.

(** X17.  The sleep ends.  When the counter does not wrap during the
    schedule and the ticks of the schedule add up to at least [delay],
    [msleep] returns, after at least [delay] ticks and no more than the
    schedule holds. *)
Theorem msleep_returns (delay t0 : Z) (schedule : list nat) :
  0 <= t0 -> 0 <= delay -> schedule <> [] ->
  delay <= Z.of_nat (sum_list schedule) ->
  t0 + Z.of_nat (sum_list schedule) < 4294967296 ->
  exists e,
    msleep delay t0 schedule = Some e /\
    delay <= Z.of_nat e <= Z.of_nat (sum_list schedule).
Proof.
  intros Ht Hd Hne Hsum Hfit. unfold msleep.
  replace (to_uint32 (t0 + delay)) with (t0 + delay)
    by (unfold to_uint32; symmetry; apply Z.mod_small; lia).
  destruct (msleep_wait_returns t0 delay schedule O) as (e & He & Hb);
    try assumption; cbn [Nat.add]; try lia.
  rewrite Z.add_0_r in He. exists e. split; [exact He | lia].
Qed.

Lemma msleep_returns_witness :
  0 <= 5 /\ 0 <= 3 /\ [0; 1; 0; 1; 1; 1]%nat <> [] /\
  3 <= Z.of_nat (sum_list [0; 1; 0; 1; 1; 1]%nat) /\
  5 + Z.of_nat (sum_list [0; 1; 0; 1; 1; 1]%nat) < 4294967296 /\
  exists e,
    msleep 3 5 [0; 1; 0; 1; 1; 1]%nat = Some e /\
    3 <= Z.of_nat e <= Z.of_nat (sum_list [0; 1; 0; 1; 1; 1]%nat).
Proof.
  assert (H0 : 0 <= 5) by lia.
  assert (H1 : 0 <= 3) by lia.
  assert (H2 : [0; 1; 0; 1; 1; 1]%nat <> []) by discriminate.
  assert (H3 : 3 <= Z.of_nat (sum_list [0; 1; 0; 1; 1; 1]%nat))
    by (simpl; lia).
  assert (H4 : 5 + Z.of_nat (sum_list [0; 1; 0; 1; 1; 1]%nat) < 4294967296)
    by (simpl; lia).
  exact (conj H0 (conj H1 (conj H2 (conj H3 (conj H4
           (msleep_returns 3 5 [0; 1; 0; 1; 1; 1]%nat H0 H1 H2 H3 H4)))))).
Defined.

(** ** Where a line ends *)

(** Input without a carriage return is absorbed by the loop. *)
Lemma line_loop_no_cr (pre : list Z) : forall m,
  wf m -> Forall (fun w => is_cr w = false) pre ->
  exists m1, wf m1 /\ forall rest, line_loop (pre ++ rest) m = line_loop rest m1.
Proof.
  induction pre as [|w pre IH]; intros m Hwf Hpre.
  - exists m. split; [exact Hwf | reflexivity].
  - apply Forall_cons in Hpre as [Hw Hpre]. unfold is_cr in Hw.
    destruct (edit_total (to_char w) m) as [m0 Hm0];
      [destruct Hwf as (_ & ? & _); lia|].
    destruct (IH m0 (edit_wf _ _ _ Hwf Hm0) Hpre) as (m1 & Hwf1 & Hrun).
    exists m1. split; [exact Hwf1|]. intros rest.
    rewrite <- app_comm_cons. cbn [line_loop]. rewrite Hw, Hm0. apply Hrun.
Qed.

(** X18.  Where a line ends.  On a well-formed machine with an empty
    buffer, whatever is typed (editing bytes included, the ring wrapped
    or not), [get_buffered_line] keeps waiting as long as no carriage
    return arrives, and returns at the first one, leaving the input
    after it unread.  On return the slot before the write cursor holds a
    newline, the slot at the write cursor holds a NUL, and the last two
    bytes sent are carriage return, newline. *)
Theorem line_ends_at_first_cr (pre : list Z) (m : machine) :
  wf m -> start_ndx m = end_ndx m ->
  Forall (fun w => is_cr w = false) pre ->
  (exists m', get_buffered_line pre m = Blocked m') /\
  (forall w post, is_cr w = true ->
     exists m',
       get_buffered_line (pre ++ w :: post) m = Returns tt post m' /\
       wf m' /\
       buf_get (dec_ndx (end_ndx m')) m' = 10 /\
       buf_get (end_ndx m') m' = 0 /\
       exists t, tx m' = t ++ [13; 10]).
Proof.
  intros Hwf Hempty Hpre.
  destruct (line_loop_no_cr pre m Hwf Hpre) as (m1 & Hwf1 & Hrun).
  unfold get_buffered_line.
  replace (start_ndx m =? end_ndx m) with true
    by (symmetry; apply Z.eqb_eq; exact Hempty).
  cbn [negb]. split.
  - exists m1. rewrite <- (app_nil_r pre), Hrun. reflexivity.
  - intros w post Hw. unfold is_cr in Hw.
    exists (end_of_line m1). rewrite Hrun. cbn [line_loop]. rewrite Hw.
    split; [reflexivity|]. split; [apply end_of_line_wf, Hwf1|].
    destruct Hwf1 as (Hs1 & He1 & Hl1).
    destruct (ndx_round_trip_aux (end_ndx m1) He1) as (Hdi & Hinc).
    pose proof (inc_ndx_range (end_ndx m1) ltac:(lia)) as Hir.
    unfold end_of_line, buf_put, set_end_ndx, set_buf, usart_send_blocking,
      buf_get.
    cbn [start_ndx end_ndx buf tx].
    rewrite to_uint16_small by exact Hir. rewrite Hdi.
    split; [|split].
    + rewrite list_lookup_total_insert_ne.
      * apply list_lookup_total_insert_eq. unfold BUFLEN in *. lia.
      * rewrite Hinc. destruct (end_ndx m1 =? BUFLEN - 1) eqn:H126;
          rewrite ?Z.eqb_eq, ?Z.eqb_neq in H126; unfold BUFLEN in *; lia.
    + apply list_lookup_total_insert_eq.
      rewrite length_insert. unfold BUFLEN in *. lia.
    + exists (tx m1). rewrite <- app_assoc. reflexivity.
Qed.

Lemma line_ends_at_first_cr_witness :
  wf power_on /\ start_ndx power_on = end_ndx power_on /\
  Forall (fun w => is_cr w = false) [97; 8; 98; 23] /\
  (exists m', get_buffered_line [97; 8; 98; 23] power_on = Blocked m') /\
  (forall w post, is_cr w = true ->
     exists m',
       get_buffered_line ([97; 8; 98; 23] ++ w :: post) power_on
       = Returns tt post m' /\
       wf m' /\
       buf_get (dec_ndx (end_ndx m')) m' = 10 /\
       buf_get (end_ndx m') m' = 0 /\
       exists t, tx m' = t ++ [13; 10]).
Proof.
  assert (H0 : wf power_on)
    by (unfold wf, BUFLEN; simpl; repeat split; lia).
  assert (H1 : start_ndx power_on = end_ndx power_on) by reflexivity.
  assert (H2 : Forall (fun w => is_cr w = false) [97; 8; 98; 23])
    by (repeat constructor).
  exact (conj H0 (conj H1 (conj H2
           (line_ends_at_first_cr [97; 8; 98; 23] power_on H0 H1 H2)))).
Defined.

(** ** What the calls leave alone *)

Lemma editor_frame_refl m : editor_frame m m.
Proof.
  repeat split. exists []. rewrite app_nil_r. reflexivity.
Qed.

Lemma editor_frame_trans m1 m2 m3 :
  editor_frame m1 m2 -> editor_frame m2 m3 -> editor_frame m1 m3.
Proof.
  intros (Hs & Hl & t & Ht) (Hs' & Hl' & t' & Ht').
  repeat split; [congruence | congruence |].
  exists (t ++ t'). rewrite Ht', Ht, app_assoc. reflexivity.
Qed.

Lemma back_up_frame m : editor_frame m (back_up m).
Proof.
  repeat split. exists [8; 32; 8]. simpl. rewrite <- !app_assoc. reflexivity.
Qed.

Lemma sent_frame bs m : editor_frame m (sent bs m).
Proof. repeat split. exists bs. reflexivity. Qed.

Lemma edit_frame c m m' : edit c m = Some m' -> editor_frame m m'.
Proof.
  unfold edit.
  destruct ((c =? 8) || (c =? 127)).
  { destruct (buf_len m =? 0); intros [= <-];
      [apply (sent_frame [7]) | apply back_up_frame]. }
  destruct (c =? 23).
  { apply while_invariant; [|apply editor_frame_refl].
    intros s Hs _. eapply editor_frame_trans; [exact Hs | apply back_up_frame]. }
  destruct (c =? 21).
  { apply while_invariant; [|apply editor_frame_refl].
    intros s Hs _. eapply editor_frame_trans; [exact Hs | apply back_up_frame]. }
  destruct (buf_len m =? BUFLEN - 1); intros [= <-];
    [apply (sent_frame [7])|].
  repeat split; [simpl; apply length_insert | exists [c]; reflexivity].
Qed.

Lemma end_of_line_frame m : editor_frame m (end_of_line m).
Proof.
  repeat split; [simpl; rewrite !length_insert; reflexivity|].
  exists [13; 10]. simpl. rewrite <- app_assoc. reflexivity.
Qed.

Lemma line_loop_frame rx : forall m rx' m',
  line_loop rx m = Returns tt rx' m' ->
  editor_frame m m' /\ exists used, rx = used ++ rx'.
Proof.
  induction rx as [|w rx IH]; intros m rx' m'; cbn [line_loop];
    [discriminate|].
  destruct (to_char w =? 13).
  - intros [= <- <-]. split; [apply end_of_line_frame|].
    exists [w]. reflexivity.
  - destruct (edit (to_char w) m) as [m0|] eqn:Hm0; [|discriminate].
    intros Hrun. destruct (IH _ _ _ Hrun) as (Hf & used & ->).
    split; [eapply editor_frame_trans; [eapply edit_frame, Hm0 | exact Hf]|].
    exists (w :: used). reflexivity.
Qed.

(** X20.  What [get_buffered_line] leaves alone.  Whatever the machine
    and the input, a returning call has not moved the read cursor nor
    resized the array; the wire has only grown (nothing sent earlier is
    lost) and the input handed back is a suffix of the input given. *)
Theorem get_buffered_line_frame (rx rx' : list Z) (m m' : machine) :
  get_buffered_line rx m = Returns tt rx' m' ->
  start_ndx m' = start_ndx m /\
  length (buf m') = length (buf m) /\
  (exists t, tx m' = tx m ++ t) /\
  (exists used, rx = used ++ rx').
Proof.
  unfold get_buffered_line.
  destruct (negb (start_ndx m =? end_ndx m)).
  - intros [= <- <-]. destruct (editor_frame_refl m) as (Hs & Hl & Ht).
    repeat split; try assumption. exists []. reflexivity.
  - intros Hrun. destruct (line_loop_frame _ _ _ _ Hrun)
      as ((Hs & Hl & Ht) & Hu).
    repeat split; assumption.
Qed.

Lemma get_buffered_line_frame_witness :
  get_buffered_line [97; 23; 98; 13; 99] (Machine 5 5 (replicate 128 0) [1])
  = Returns tt [99]
      (Machine 5 7 (<[7%nat := 0]> (<[6%nat := 10]> (<[5%nat := 98]>
                      (<[5%nat := 97]> (replicate 128 0)))))
         [1; 97; 8; 32; 8; 98; 13; 10]) /\
  5 = 5 /\
  length (<[7%nat := 0]> (<[6%nat := 10]> (<[5%nat := 98]>
            (<[5%nat := 97]> (replicate 128 0)))))
  = length (replicate 128 0) /\
  (exists t, [1; 97; 8; 32; 8; 98; 13; 10] = [1] ++ t) /\
  (exists used, [97; 23; 98; 13; 99] = used ++ [99]).
Proof.
  assert (H : get_buffered_line [97; 23; 98; 13; 99]
                (Machine 5 5 (replicate 128 0) [1])
              = Returns tt [99]
                  (Machine 5 7 (<[7%nat := 0]> (<[6%nat := 10]>
                                  (<[5%nat := 98]> (<[5%nat := 97]>
                                     (replicate 128 0)))))
                     [1; 97; 8; 32; 8; 98; 13; 10])) by run.
  exact (conj H (get_buffered_line_frame _ _ _ _ H)).
Defined.

(** X21.  What draining leaves alone.  When bytes are pending
    ([start_ndx <> end_ndx]), a returning [_read] on a standard
    descriptor has received nothing, sent nothing, and changed neither
    the array nor the write cursor: only the read cursor moves. *)
Theorem read_drain_frame (fd len : Z) (rx rx' : list Z) (m m' : machine)
    (r : Z) (dest : list Z) :
  fd <= 2 -> start_ndx m <> end_ndx m ->
  _read fd len rx m = Returns (r, dest) rx' m' ->
  rx' = rx /\ end_ndx m' = end_ndx m /\ buf m' = buf m /\ tx m' = tx m.
Proof.
  intros Hfd Hne. unfold _read, get_buffered_line. pass_guard fd.
  replace (start_ndx m =? end_ndx m) with false
    by (symmetry; apply Z.eqb_neq; exact Hne).
  cbn [negb].
  destruct (while (Z.to_nat len) _ read_body (m, [], 0, len))
    as [[[[m2 dest2] my_len] len2]|] eqn:Hloop; [|discriminate].
  intros [= _ _ <- <-]. split; [reflexivity|].
  apply (while_invariant
           (fun s : machine * list Z * Z * Z =>
              end_ndx s.1.1.1 = end_ndx m /\ buf s.1.1.1 = buf m /\
              tx s.1.1.1 = tx m)
           (fun '(m, _, _, len) => (buf_len m >? 0) && (len >? 0))
           read_body) with (3 := Hloop).
  - intros [[[m0 d0] n0] l0]. cbn [fst snd read_body]. intros H _. exact H.
  - cbn [fst]. auto.
Qed.

Lemma read_drain_frame_witness :
  0 <= 2 /\
  start_ndx (Machine 0 3 ([104; 105; 10] ++ replicate 125 0) [7]) <>
  end_ndx (Machine 0 3 ([104; 105; 10] ++ replicate 125 0) [7]) /\
  _read 0 2 [120] (Machine 0 3 ([104; 105; 10] ++ replicate 125 0) [7])
  = Returns (2, [104; 105]) [120]
      (Machine 2 3 ([104; 105; 10] ++ replicate 125 0) [7]) /\
  [120] = [120] /\ 3 = 3 /\
  [104; 105; 10] ++ replicate 125 0 = [104; 105; 10] ++ replicate 125 0 /\
  [7] = [7].
Proof.
  assert (Hfd : 0 <= 2) by lia.
  assert (Hne : start_ndx (Machine 0 3 ([104; 105; 10] ++ replicate 125 0) [7])
                <> end_ndx (Machine 0 3 ([104; 105; 10] ++ replicate 125 0) [7]))
    by (simpl; lia).
  assert (H : _read 0 2 [120]
                (Machine 0 3 ([104; 105; 10] ++ replicate 125 0) [7])
              = Returns (2, [104; 105]) [120]
                  (Machine 2 3 ([104; 105; 10] ++ replicate 125 0) [7])) by run.
  exact (conj Hfd (conj Hne (conj H
           (read_drain_frame _ _ _ _ _ _ _ _ Hfd Hne H)))).
Defined.

(** X22.  Once the write cursor is below the read cursor, [_read] on a
    standard descriptor returns 0 and changes nothing, whatever [len] and
    whatever the transport holds: [buf_len] is not positive and the
    guard of [get_buffered_line] sees pending bytes.  The machine it
    returns is the one it was given, so every later call does the same. *)
Theorem read_stuck_when_wrapped (fd len : Z) (rx : list Z) (m : machine) :
  fd <= 2 -> 0 <= end_ndx m < start_ndx m -> start_ndx m < BUFLEN ->
  _read fd len rx m = Returns (0, []) rx m.
Proof.
  intros Hfd He Hs. unfold _read, get_buffered_line. pass_guard fd.
  replace (start_ndx m =? end_ndx m) with false
    by (symmetry; apply Z.eqb_neq; lia).
  cbn [negb]. rewrite while_done; [reflexivity|].
  apply andb_false_iff. left. rewrite Z.gtb_ltb. apply Z.ltb_ge.
  unfold buf_len, BUFLEN in *. Z.to_euclidean_division_equations. lia.
Qed.

Lemma read_stuck_when_wrapped_witness :
  0 <= 2 /\ 0 <= 1 < 126 /\ 126 < BUFLEN /\
  _read 0 10 [104; 13] (Machine 126 1 (replicate 128 97) [])
  = Returns (0, []) [104; 13] (Machine 126 1 (replicate 128 97) []).
Proof.
  assert (Hfd : 0 <= 2) by lia.
  assert (He : 0 <= 1 < 126) by lia.
  assert (Hs : 126 < BUFLEN) by (unfold BUFLEN; lia).
  exact (conj Hfd (conj He (conj Hs
           (read_stuck_when_wrapped 0 10 [104; 13]
              (Machine 126 1 (replicate 128 97) []) Hfd He Hs)))).
Defined.
